(** * Upload pipeline of the AI Bug Detector front end

    A shallow embedding of [frontend/src/components/upload/FileUpload.tsx]:
    the pre-flight check [beforeUpload], the XMLHttpRequest based
    [customUpload] with its three listeners, and [removeFile].

    JavaScript values are taken at their declared TypeScript types.  Calls
    into the browser and into antd ([message.*], [console.error],
    [JSON.parse], [xhr.open], [xhr.send], the [onProgress] / [onSuccess] /
    [onError] callbacks of antd's [Upload]) are recorded, in program order,
    in a log of [Effect]s; React state is threaded explicitly. *)

From Stdlib Require Import ZArith Lia Ascii String DecimalString Sorted.
From Stdlib Require Import Floats.SpecFloat.
From stdpp Require Import base list.

Local Open Scope string_scope.
Local Open Scope Z_scope.

(** ** JavaScript strings

    Strings are byte strings holding the UTF-8 encoding of the source
    text.  The names that matter to the checks are compared against ASCII
    literals only. *)

Module JsString.

(** [String.prototype.toLowerCase] on Basic Latin text: the letters
    [A-Z] are lowered and every other byte is kept.  JavaScript also
    lowers the cased letters outside Basic Latin (["Ç"] gives ["ç"]); text
    holding such letters is outside the domain of this definition, and a
    property that states the lowered text is stated for [is_ascii]
    text. *)
Definition lower_ascii (c : ascii) : ascii :=
  let n := N_of_ascii c in
  if ((65 <=? n) && (n <=? 90))%N then ascii_of_N (n + 32) else c.

Fixpoint toLowerCase (s : string) : string :=
  match s with
  | EmptyString => EmptyString
  | String c s' => String (lower_ascii c) (toLowerCase s')
  end.

(** [s.split(sep)] for a one-character separator: always at least one
    segment, [k] separators give [k + 1] segments. *)
Fixpoint split (sep : ascii) (s : string) : list string :=
  match s with
  | EmptyString => [EmptyString]
  | String c s' =>
      if Ascii.eqb c sep then EmptyString :: split sep s'
      else match split sep s' with
           | seg :: rest => String c seg :: rest
           | [] => [String c EmptyString]
           end
  end.

(** [Array.prototype.pop]: the last element, [undefined] ([None]) on
    an empty array. *)
Definition pop (l : list string) : option string := last l.

(** [Array.prototype.includes] on an array of strings. *)
Fixpoint includes (l : list string) (x : string) : bool :=
  match l with
  | [] => false
  | y :: l' => String.eqb y x || includes l' x
  end.

(** [Array.prototype.join]. *)
Fixpoint join (sep : string) (l : list string) : string :=
  match l with
  | [] => ""
  | [x] => x
  | x :: l' => x ++ sep ++ join sep l'
  end.

(** Decimal rendering of an integer-valued number in a template
    literal. *)
Definition of_Z (z : Z) : string := NilZero.string_of_int (Z.to_int z).

(** [s] contains the character [c]. *)
Fixpoint has_char (c : ascii) (s : string) : bool :=
  match s with
  | EmptyString => false
  | String d s' => Ascii.eqb d c || has_char c s'
  end.


End JsString.

(** ** JavaScript numbers

    A [number] is an IEEE 754 binary64 value. *)

Definition JsNumber := spec_float.

Module JsNumber.

Definition prec : Z := 53.
Definition emax : Z := 1024.

(** The double nearest to an integer (exact below [2^53]). *)
Definition of_Z (z : Z) : JsNumber := binary_normalize prec emax z 0 false.

Definition div (x y : JsNumber) : JsNumber := SFdiv prec emax x y.
Definition mul (x y : JsNumber) : JsNumber := SFmul prec emax x y.

(** [Math.round]: the integer nearest to [x], ties towards +infinity;
    NaN, the infinities and the zeros are returned as they are, and a
    result of zero keeps the sign of [x]. *)
Definition round (x : JsNumber) : JsNumber :=
  match x with
  | S754_finite s m e =>
      let num := (if s then Z.neg m else Z.pos m) in
      (* x = num * 2^e; floor (x + 1/2) = floor ((2 * x + 1) / 2) *)
      let n :=
        if 0 <=? e then num * 2 ^ e
        else (2 * num + 2 ^ (- e)) / 2 ^ (- e + 1) in
      if n =? 0 then S754_zero s else of_Z n
  | _ => x
  end.

End JsNumber.

(** ** Data model *)

(** The browser's [File] handle: display name and size in bytes. *)
Module File.
Record t := mk { name : string; size : Z }.
End File.

(** [interface FileInfo] *)
Module FileInfo.
Record t := mk {
  filename : string;
  original_name : string;
  size : JsNumber;
  extension : string;
  upload_time : string;
  file_path : string;
  status : string
}.
End FileInfo.

(** [interface UploadResponse] *)
Module UploadResponse.
Record t := mk {
  success : bool;
  message : string;
  file_info : FileInfo.t;
  project_id : string
}.
End UploadResponse.

(** [FileInfo & { project_id: string }], the element type of
    [uploadedFiles]. *)
Module UploadedFile.
Record t := mk {
  filename : string;
  original_name : string;
  size : JsNumber;
  extension : string;
  upload_time : string;
  file_path : string;
  status : string;
  project_id : string
}.

(** The object literal [{ ...response.file_info, project_id:
    response.project_id }]. *)
Definition of_response (response : UploadResponse.t) : t :=
  let fi := UploadResponse.file_info response in
  {| filename := FileInfo.filename fi;
     original_name := FileInfo.original_name fi;
     size := FileInfo.size fi;
     extension := FileInfo.extension fi;
     upload_time := FileInfo.upload_time fi;
     file_path := FileInfo.file_path fi;
     status := FileInfo.status fi;
     project_id := UploadResponse.project_id response |}.
End UploadedFile.

(** A JavaScript exception value: [name] is ["Error"] for [new Error(..)],
    and e.g. ["SyntaxError"] for what [JSON.parse] throws. *)
Module JsError.
Record t := mk { name : string; message : string }.
Definition new_Error (message : string) : t := mk "Error" message.
End JsError.

(** [ProgressEvent] of [xhr.upload]. *)
Module ProgressEvent.
Record t := mk { lengthComputable : bool; loaded : Z; total : Z }.
End ProgressEvent.

(** A [FormData] entry value. *)
Inductive FormValue :=
| FormFile (f : File.t)
| FormString (s : string).

(** Calls that leave the component, in program order. *)
Inductive Effect :=
| message_success (content : string)
| message_error (content : string)
| console_error (label : string) (e : JsError.t)
| JSON_parse_call (text : string)
| xhr_open (method url : string)
| xhr_send (formData : list (string * FormValue))
| onProgress (percent : JsNumber)
| onSuccess (response : UploadResponse.t)
| onError (e : JsError.t).

(** The three [useState] cells of the component. *)
Record State := mkState {
  uploading : bool;
  uploadProgress : JsNumber;
  uploadedFiles : list UploadedFile.t
}.

Definition initialState : State :=
  {| uploading := false; uploadProgress := JsNumber.of_Z 0; uploadedFiles := [] |}.

(** ** The effect monad

    A computation reads and writes the React state, appends to the log
    and either returns a value or throws. *)

Inductive Completion (A : Type) :=
| Normal (a : A)
| Throw (e : JsError.t).
Arguments Normal {A} a.
Arguments Throw {A} e.

Definition M (A : Type) : Type := State -> Completion A * State * list Effect.

Definition ret {A} (a : A) : M A := fun s => (Normal a, s, []).

Definition bind {A B} (m : M A) (k : A -> M B) : M B :=
  fun s =>
    match m s with
    | (Normal a, s1, l1) =>
        let '(r, s2, l2) := k a s1 in (r, s2, (l1 ++ l2)%list)
    | (Throw e, s1, l1) => (Throw e, s1, l1)
    end.

Definition throw {A} (e : JsError.t) : M A := fun s => (Throw e, s, []).

(** [try { body } catch (e) { handler e }] *)
Definition try_catch {A} (body : M A) (handler : JsError.t -> M A) : M A :=
  fun s =>
    match body s with
    | (Normal a, s1, l1) => (Normal a, s1, l1)
    | (Throw e, s1, l1) =>
        let '(r, s2, l2) := handler e s1 in (r, s2, (l1 ++ l2)%list)
    end.

Definition emit (e : Effect) : M unit := fun s => (Normal tt, s, [e]).

Declare Scope js_scope.
Delimit Scope js_scope with js.
Notation "x <- m ;; k" := (bind m (fun x => k))
  (at level 100, m at next level, k at level 200) : js_scope.
Notation "m ;; k" := (bind m (fun _ => k))
  (at level 100, k at level 200) : js_scope.
Local Open Scope js_scope.

(** State setters returned by [useState]. *)
Definition setUploading (b : bool) : M unit :=
  fun s => (Normal tt,
            {| uploading := b; uploadProgress := uploadProgress s;
               uploadedFiles := uploadedFiles s |}, []).

Definition setUploadProgress (p : JsNumber) : M unit :=
  fun s => (Normal tt,
            {| uploading := uploading s; uploadProgress := p;
               uploadedFiles := uploadedFiles s |}, []).

(** The functional form [setUploadedFiles(prev => f prev)]. *)
Definition setUploadedFiles
    (f : list UploadedFile.t -> list UploadedFile.t) : M unit :=
  fun s => (Normal tt,
            {| uploading := uploading s; uploadProgress := uploadProgress s;
               uploadedFiles := f (uploadedFiles s) |}, []).

(** Projections of a run. *)
Definition result_of {A} (r : Completion A * State * list Effect) := fst (fst r).
Definition state_of {A} (r : Completion A * State * list Effect) := snd (fst r).
Definition log_of {A} (r : Completion A * State * list Effect) := snd r.

(** ** Validation gate: [beforeUpload] *)

Definition supportedExtensions : list string :=
  [".cpp"; ".hpp"; ".h"; ".c"; ".cc"; ".cxx"; ".zip"; ".tar.gz"; ".tgz"].

Definition maxFileSize : Z := 50 * 1024 * 1024.

(** ['.' + file.name.split('.').pop()?.toLowerCase()]; concatenating
    [undefined] would give [".undefined"]. *)
Definition fileExtension (name : string) : string :=
  "." ++ match JsString.pop (JsString.split "." name) with
         | Some seg => JsString.toLowerCase seg
         | None => "undefined"
         end.

Definition unsupported_message (ext : string) : string :=
  "不支持的文件类型: " ++ ext ++ "。支持的类型: "
    ++ JsString.join ", " supportedExtensions.

Definition too_large_message : string := "文件大小不能超过 50MB".

Definition beforeUpload (file : File.t) : M bool :=
  let fileExtension := fileExtension (File.name file) in
  if negb (JsString.includes supportedExtensions fileExtension) then
    emit (message_error (unsupported_message fileExtension)) ;;
    ret false
  else if File.size file >? maxFileSize then
    emit (message_error too_large_message) ;;
    ret false
  else ret true.

(** ** Transfer engine: [customUpload] *)

(** What the browser delivers to the listeners registered on [xhr] and
    [xhr.upload]. *)
Inductive XhrEvent :=
| upload_progress (event : ProgressEvent.t)
| load (status : Z) (responseText : string)
| error.

Section TransferEngine.

(** [JSON.parse], with its result typed as the source types it
    ([const response: UploadResponse]); [inl] is the thrown exception. *)
Variable JSON_parse : string -> JsError.t + UploadResponse.t.

Definition parse (text : string) : M UploadResponse.t :=
  emit (JSON_parse_call text) ;;
  match JSON_parse text with
  | inl e => throw e
  | inr response => ret response
  end.

(** [Math.round((event.loaded / event.total) * 100)] *)
Definition percent_of (loaded total : Z) : JsNumber :=
  JsNumber.round
    (JsNumber.mul (JsNumber.div (JsNumber.of_Z loaded) (JsNumber.of_Z total))
                  (JsNumber.of_Z 100)).

(** [xhr.upload.addEventListener('progress', ...)] *)
Definition progress_listener (event : ProgressEvent.t) : M unit :=
  if ProgressEvent.lengthComputable event then
    let percent :=
      percent_of (ProgressEvent.loaded event) (ProgressEvent.total event) in
    setUploadProgress percent ;;
    emit (onProgress percent)
  else ret tt.

(** [xhr.addEventListener('load', ...)] *)
Definition load_listener (status : Z) (responseText : string) : M unit :=
  (if status =? 200 then
     try_catch
       (response <- parse responseText ;;
        if UploadResponse.success response then
          emit (message_success (UploadResponse.message response)) ;;
          setUploadedFiles
            (fun prev => (prev ++ [UploadedFile.of_response response])%list) ;;
          emit (onSuccess response)
        else throw (JsError.new_Error (UploadResponse.message response)))
       (fun parseError =>
          emit (console_error "解析响应失败:" parseError) ;;
          emit (message_error "服务器响应格式错误") ;;
          emit (onError parseError))
   else
     let errorMessage := "上传失败: HTTP " ++ JsString.of_Z status in
     emit (message_error errorMessage) ;;
     emit (onError (JsError.new_Error errorMessage))) ;;
  setUploading false ;;
  setUploadProgress (JsNumber.of_Z 0).

(** [xhr.addEventListener('error', ...)] *)
Definition error_listener : M unit :=
  let errorMessage := "网络错误，上传失败" in
  emit (message_error errorMessage) ;;
  emit (onError (JsError.new_Error errorMessage)) ;;
  setUploading false ;;
  setUploadProgress (JsNumber.of_Z 0).

(** The synchronous body of [customUpload].  [now] is the value of
    [Date.now()]; [send_exn] is the exception, if any, that the browser
    raises from the calls inside the [try] block (modelled at
    [xhr.send], its last statement). *)
Definition customUpload
    (file : File.t) (now : Z) (send_exn : option JsError.t) : M unit :=
  setUploading true ;;
  setUploadProgress (JsNumber.of_Z 0) ;;
  try_catch
    (let formData :=
       [("file", FormFile file);
        ("project_name", FormString ("Project_" ++ JsString.of_Z now));
        ("description", FormString "C++项目代码分析")] in
     emit (xhr_open "POST" "/api/upload") ;;
     match send_exn with
     | Some e => throw e
     | None => emit (xhr_send formData)
     end)
    (fun error =>
       emit (console_error "上传异常:" error) ;;
       emit (message_error "上传过程中发生异常") ;;
       emit (onError error) ;;
       setUploading false ;;
       setUploadProgress (JsNumber.of_Z 0)).

Definition dispatch (ev : XhrEvent) : M unit :=
  match ev with
  | upload_progress event => progress_listener event
  | load status responseText => load_listener status responseText
  | error => error_listener
  end.

Fixpoint deliver (events : list XhrEvent) : M unit :=
  match events with
  | [] => ret tt
  | ev :: rest => dispatch ev ;; deliver rest
  end.

(** One transfer: the call of [customUpload] followed by the events of
    its request.  A request whose [send] threw delivers none. *)
Definition transfer (file : File.t) (now : Z) (send_exn : option JsError.t)
    (events : list XhrEvent) : M unit :=
  customUpload file now send_exn ;;
  match send_exn with
  | None => deliver events
  | Some _ => ret tt
  end.

(** The [Dragger] is given [beforeUpload] and [customRequest =
    customUpload]: antd calls the request only for a file that
    [beforeUpload] lets through. *)
Definition upload (file : File.t) (now : Z) (send_exn : option JsError.t)
    (events : list XhrEvent) : M unit :=
  ok <- beforeUpload file ;;
  if ok then transfer file now send_exn events else ret tt.

End TransferEngine.

(** ** Result list: [removeFile] *)

(** [Array.prototype.filter] with an (element, index) callback; [i] is
    the index of the head of [l]. *)
Fixpoint filter_from {A} (p : A -> Z -> bool) (i : Z) (l : list A) : list A :=
  match l with
  | [] => []
  | x :: l' =>
      if p x i then x :: filter_from p (i + 1) l' else filter_from p (i + 1) l'
  end.

Definition removeFile (index : Z) : M unit :=
  setUploadedFiles (filter_from (fun _ i => negb (i =? index)) 0) ;;
  emit (message_success "文件已从列表中移除").

(** Sample values used by the examples below. *)
Module Sample.
Definition info : FileInfo.t :=
  FileInfo.mk "1700000000_main.cpp" "main.cpp" (JsNumber.of_Z 1024) ".cpp"
              "2024-01-01T00:00:00" "uploads/1700000000_main.cpp" "uploaded".
Definition ack : UploadResponse.t :=
  UploadResponse.mk true "ok" info "p1".
Definition nack : UploadResponse.t :=
  UploadResponse.mk false "project rejected" info "p1".
Definition syntax_error : JsError.t :=
  JsError.mk "SyntaxError" "Unexpected end of JSON input".
(** A stand-in for [JSON.parse] that knows three bodies. *)
Definition JSON_parse (text : string) : JsError.t + UploadResponse.t :=
  if String.eqb text "ack" then inr ack
  else if String.eqb text "nack" then inr nack
  else inl syntax_error.
Definition main_cpp : File.t := File.mk "main.cpp" 1024.
Definition tick (loaded total : Z) : ProgressEvent.t :=
  ProgressEvent.mk true loaded total.
End Sample.

(** ** Definitions used to state the properties *)

(** The specification's wording of the extension: "the text after the
    final [.]"; a name without [.] is taken whole. *)
Fixpoint text_after_final_dot (name : string) : string :=
  match name with
  | EmptyString => EmptyString
  | String c rest =>
      if JsString.has_char "." rest then text_after_final_dot rest
      else if Ascii.eqb c "." then rest
      else name
  end.

(** The state once a transfer is over: not uploading, progress 0, the
    list as given. *)
Definition idle (files : list UploadedFile.t) : State :=
  {| uploading := false; uploadProgress := JsNumber.of_Z 0; uploadedFiles := files |}.

(** The state while a transfer is in flight, showing progress [p]. *)
Definition in_flight (p : JsNumber) (files : list UploadedFile.t) : State :=
  {| uploading := true; uploadProgress := p; uploadedFiles := files |}.

(** The request as the engine sends it. *)
Definition request_log (file : File.t) (now : Z) : list Effect :=
  [xhr_open "POST" "/api/upload";
   xhr_send [("file", FormFile file);
             ("project_name", FormString ("Project_" ++ JsString.of_Z now));
             ("description", FormString "C++项目代码分析")]].

(** The percentages reported for a sequence of progress ticks: one for
    each tick whose total is known. *)
Definition percents (ticks : list ProgressEvent.t) : list JsNumber :=
  List.map (fun ev => percent_of (ProgressEvent.loaded ev) (ProgressEvent.total ev))
           (List.filter ProgressEvent.lengthComputable ticks).

(** The last element of a list of percentages, [p] if there is none. *)
Definition latest (p : JsNumber) (ps : list JsNumber) : JsNumber :=
  List.last ps p.

(** [load] and [error] end a request; [upload_progress] does not. *)
Definition is_terminal (ev : XhrEvent) : bool :=
  match ev with
  | upload_progress _ => false
  | load _ _ | error => true
  end.

(** The events of one request as XMLHttpRequest delivers them: upload
    progress ticks, then one terminal event. *)
Definition request_events (ticks : list ProgressEvent.t) (terminal : XhrEvent)
  : list XhrEvent :=
  (List.map upload_progress ticks ++ [terminal])%list.

(** The terminal callbacks of antd's request interface. *)
Definition is_terminal_callback (e : Effect) : bool :=
  match e with
  | onSuccess _ | onError _ => true
  | _ => false
  end.

Definition is_onSuccess (e : Effect) : bool :=
  match e with
  | onSuccess _ => true
  | _ => false
  end.

(** The ways a submission fails: turned away by [beforeUpload], an
    exception while the request is set up, a transport error, a status
    other than 200, a body that [JSON.parse] rejects, and an
    acknowledgment whose [success] is false. *)
Inductive Failure (JSON_parse : string -> JsError.t + UploadResponse.t)
    (file : File.t) : option JsError.t -> list XhrEvent -> Prop :=
| fail_policy (send_exn : option JsError.t) (events : list XhrEvent) :
    result_of (beforeUpload file initialState) = Normal false ->
    Failure JSON_parse file send_exn events
| fail_exception (e : JsError.t) (events : list XhrEvent) :
    Failure JSON_parse file (Some e) events
| fail_transport (ticks : list ProgressEvent.t) :
    Failure JSON_parse file None (request_events ticks error)
| fail_status (ticks : list ProgressEvent.t) (status : Z) (text : string) :
    status <> 200 ->
    Failure JSON_parse file None (request_events ticks (load status text))
| fail_malformed (ticks : list ProgressEvent.t) (text : string) (e : JsError.t) :
    JSON_parse text = inl e ->
    Failure JSON_parse file None (request_events ticks (load 200 text))
| fail_unsuccessful (ticks : list ProgressEvent.t) (text : string)
    (response : UploadResponse.t) :
    JSON_parse text = inr response ->
    UploadResponse.success response = false ->
    Failure JSON_parse file None (request_events ticks (load 200 text)).

(** *** Exact arithmetic behind the binary64 operations *)

(** The integer nearest to [a / b] ([0 < b]), ties to the even one. *)
Definition rne (a b : Z) : Z :=
  let q := a / b in
  match 2 * (a mod b) ?= b with
  | Lt => q
  | Eq => if Z.even q then q else q + 1
  | Gt => q + 1
  end.

(** Mantissa and exponent of the double that holds a positive integer
    below [2^53]. *)
Definition mant (n : Z) : Z := n * 2 ^ (52 - Z.log2 n).

Definition expo (n : Z) : Z := Z.log2 n - 52.

(** The double nearest to [(a / b) * 2^e], when [a / b] has [53 + n]
    binary digits. *)
Definition rounded (a b e : Z) (n : nat) : spec_float :=
  let m := rne a (b * 2 ^ Z.of_nat n) in
  if m <? 2 ^ 53 then S754_finite false (Z.to_pos m) (e + Z.of_nat n)
  else S754_finite false (Z.to_pos (2 ^ 52)) (e + Z.of_nat n + 1).

(** The mantissa of the double 100 = [hundred_m * 2^-46]. *)
Definition hundred_m : Z := 7036874417766400.

(** Order of two positive normal doubles: by exponent, then mantissa. *)
Definition Fle (x y : spec_float) : Prop :=
  match x, y with
  | S754_finite false m1 e1, S754_finite false m2 e2 =>
      e1 < e2 \/ (e1 = e2 /\ Z.pos m1 <= Z.pos m2)
  | _, _ => False
  end.

(** A positive double with a full 53-bit mantissa and an exponent in
    [lo .. hi]. *)
Definition normal (lo hi : Z) (x : spec_float) : Prop :=
  match x with
  | S754_finite false m e => 2 ^ 52 <= Z.pos m < 2 ^ 53 /\ lo <= e <= hi
  | _ => False
  end.

(** [floor (m * 2^e + 1/2)] for [e < 0]. *)
Definition round_Z (m e : Z) : Z := (2 * m + 2 ^ (- e)) / 2 ^ (- e + 1).

(** The integer that [percent_of] reports. *)
Definition percent_Z (loaded total : Z) : Z :=
  match JsNumber.mul (JsNumber.div (JsNumber.of_Z loaded) (JsNumber.of_Z total))
                     (JsNumber.of_Z 100) with
  | S754_finite false m e => round_Z (Z.pos m) e
  | _ => 0
  end.

(** The progress ticks of one request as XMLHttpRequest reports them:
    those with a known total all carry the size [total] of the request
    body (an integer a double holds exactly), and their [loaded] counts
    lie in [0 .. total] and never go down. *)
Definition upload_ticks (total : Z) (ticks : list ProgressEvent.t) : Prop :=
  let known := List.filter ProgressEvent.lengthComputable ticks in
  0 < total < 2 ^ 53 /\
  Forall (fun ev => ProgressEvent.total ev = total /\
                    0 <= ProgressEvent.loaded ev <= total) known /\
  Sorted Z.le (List.map ProgressEvent.loaded known).

(** The callbacks of antd's request interface. *)
Definition is_callback (e : Effect) : bool :=
  match e with
  | onProgress _ | onSuccess _ | onError _ => true
  | _ => false
  end.

(** ** Further code of the front end *)

(** *** What [FileUpload] renders from its state *)

(** [disabled={uploading}] on the [Dragger]. *)
Definition dragger_disabled (s : State) : bool := uploading s.

(** [uploadProgress === 100 ? 'success' : 'active'] *)
Definition progress_status (p : JsNumber) : string :=
  if SFeqb p (JsNumber.of_Z 100) then "success" else "active".

(** [{uploading && (... <Progress percent={uploadProgress}
    status={...} /> ...)}]: the percentage and status of the progress bar,
    when it is shown. *)
Definition progress_panel (s : State) : option (JsNumber * string) :=
  if uploading s
  then Some (uploadProgress s, progress_status (uploadProgress s))
  else None.

(** One rendered [List.Item]: the name shown, the tag, and the index its
    remove button passes to [removeFile]. *)
Module ItemView.
Record t := mk {
  title : string;
  tag_color : string;
  tag_text : string;
  remove_index : Z
}.
End ItemView.

(** [renderItem={(item, index) => ...}] *)
Definition renderItem (item : UploadedFile.t) (index : Z) : ItemView.t :=
  let uploaded := String.eqb (UploadedFile.status item) "uploaded" in
  {| ItemView.title := UploadedFile.original_name item;
     ItemView.tag_color := if uploaded then "green" else "orange";
     ItemView.tag_text := if uploaded then "上传成功" else "处理中";
     ItemView.remove_index := index |}.

(** antd's [List] calls [renderItem] on each element of [dataSource] with
    its position; [i] is the position of the head of [l]. *)
Fixpoint render_items (i : Z) (l : list UploadedFile.t) : list ItemView.t :=
  match l with
  | [] => []
  | item :: l' => renderItem item i :: render_items (i + 1) l'
  end.

(** [{uploadedFiles.length > 0 && (<Card title={`已上传文件
    (${uploadedFiles.length})`}> <List dataSource={uploadedFiles} ... />)}] *)
Definition uploaded_card (s : State) : option (string * list ItemView.t) :=
  let n := Z.of_nat (length (uploadedFiles s)) in
  if n >? 0
  then Some ("已上传文件 (" ++ JsString.of_Z n ++ ")",
             render_items 0 (uploadedFiles s))
  else None.

(** *** [App]: the system information fetched on mount *)

(** [interface SystemInfo] *)
Module SystemInfo.
Record t := mk {
  name : string;
  version : string;
  status : string;
  uptime : option string;
  supported_agents : list string;
  workflow : string
}.
End SystemInfo.

(** The [useState] cells of [App]. *)
Record AppState := mkAppState {
  collapsed : bool;
  systemInfo : option SystemInfo.t;
  loading : bool
}.

Definition AppInitialState : AppState :=
  {| collapsed := false; systemInfo := None; loading := true |}.

(** [fetchSystemInfo]: [outcome] is what [fetch(...)] followed by
    [response.json()] gives, the data or the exception one of them
    raises.

    [try { ...; setSystemInfo(data); message.success(..) }
     catch (error) { console.error(..); message.error(..) }
     finally { setLoading(false) }] *)
Definition fetchSystemInfo (outcome : JsError.t + SystemInfo.t) (s : AppState)
  : AppState * list Effect :=
  let '(s1, l1) :=
    match outcome with
    | inr data =>
        ({| collapsed := collapsed s; systemInfo := Some data;
            loading := loading s |},
         [message_success "系统连接正常"])
    | inl error' =>
        (s, [console_error "获取系统信息失败:" error';
             message_error "无法连接到后端服务，请检查服务器状态"])
    end in
  ({| collapsed := collapsed s1; systemInfo := systemInfo s1; loading := false |},
   l1).

(** [if (loading) return <div className="loading-container">...] *)
Definition shows_spinner (s : AppState) : bool := loading s.

(** [{systemInfo?.version || '1.0.0'}] in the footer: the empty string
    is falsy. *)
Definition footer_version (s : AppState) : string :=
  match systemInfo s with
  | Some info =>
      if String.eqb (SystemInfo.version info) "" then "1.0.0"
      else SystemInfo.version info
  | None => "1.0.0"
  end.

(** [{systemInfo?.status === 'running' ? '正常运行' : '异常'}] *)
Definition footer_status (s : AppState) : string :=
  match systemInfo s with
  | Some info =>
      if String.eqb (SystemInfo.status info) "running" then "正常运行"
      else "异常"
  | None => "异常"
  end.

(** *** The API client *)

Module Api.

(** A query parameter value. *)
Inductive ParamValue :=
| PNumber (n : Z)
| PString (s : string).

(** An object used as a map from names to values; the order is the
    insertion order of the keys, which is the order in which the
    parameters are serialized. *)
Definition Params := list (string * ParamValue).

Fixpoint get (key : string) (o : Params) : option ParamValue :=
  match o with
  | [] => None
  | (k, v) :: o' => if String.eqb k key then Some v else get key o'
  end.

(** Assignment of one property: an existing key keeps its place and
    takes the new value, a new key goes last. *)
Fixpoint set (key : string) (value : ParamValue) (o : Params) : Params :=
  match o with
  | [] => [(key, value)]
  | (k, v) :: o' =>
      if String.eqb k key then (k, value) :: o'
      else (k, v) :: set key value o'
  end.

(** The fields of the request configuration that the interceptor reads
    or writes. *)
Record Config := mkConfig {
  method : option string;
  url : option string;
  params : option Params
}.

(** [String.prototype.toUpperCase], on the ASCII letters. *)
Definition upper_ascii (c : ascii) : ascii :=
  let n := N_of_ascii c in
  if ((97 <=? n) && (n <=? 122))%N then ascii_of_N (n - 32) else c.

Fixpoint toUpperCase (s : string) : string :=
  match s with
  | EmptyString => EmptyString
  | String c s' => String (upper_ascii c) (toUpperCase s')
  end.

(** A value in a template literal; [undefined] prints as its name. *)
Definition show (o : option string) : string :=
  match o with
  | Some s => s
  | None => "undefined"
  end.

(** The request interceptor; [now] is [Date.now()].  Returns the
    configuration and the line written with [console.log].

    [if (config.method === 'get') {
       config.params = { ...config.params, _t: Date.now() };
     }] *)
Definition request_interceptor (now : Z) (config : Config) : Config * string :=
  let config' :=
    if match method config with
       | Some m => String.eqb m "get"
       | None => false
       end
    then {| method := method config; url := url config;
            params := Some (set "_t" (PNumber now)
                              (match params config with
                               | Some o => o
                               | None => []
                               end)) |}
    else config in
  (config',
   "🚀 API请求: " ++ show (option_map toUpperCase (method config'))
     ++ " " ++ show (url config')).

(** [Math.round((progressEvent.loaded * 100) / progressEvent.total)] *)
Definition progress_of (loaded total : Z) : JsNumber :=
  JsNumber.round
    (JsNumber.div (JsNumber.mul (JsNumber.of_Z loaded) (JsNumber.of_Z 100))
                  (JsNumber.of_Z total)).

(** [onUploadProgress] of [uploadFile]: the calls it makes to
    [onProgress].  [total] is optional in axios' progress event and
    [onProgress] is an optional argument of [uploadFile]; zero is
    falsy.

    [if (progressEvent.total && onProgress) { ... onProgress(progress) }] *)
Definition onUploadProgress (has_onProgress : bool) (loaded : Z)
    (total : option Z) : list JsNumber :=
  match total with
  | Some t =>
      if negb (t =? 0) && has_onProgress then [progress_of loaded t] else []
  | None => []
  end.

(** The form that [uploadFile] posts: the optional fields are appended
    only when they are given and non-empty.

    [formData.append('file', file);
     if (projectName) formData.append('project_name', projectName);
     if (description) formData.append('description', description);] *)
Definition truthy (o : option string) : bool :=
  match o with
  | Some s => negb (String.eqb s "")
  | None => false
  end.

Definition uploadFile_formData (file : File.t)
    (projectName description : option string) : list (string * FormValue) :=
  ([("file", FormFile file)]
   ++ (if truthy projectName then [("project_name", FormString (show projectName))] else [])
   ++ (if truthy description then [("description", FormString (show description))] else []))%list.

End Api.

(** *** Definitions used to state the further properties *)

(** The acknowledgments passed to [onSuccess], in order. *)
Fixpoint successes (log : list Effect) : list UploadResponse.t :=
  match log with
  | [] => []
  | onSuccess r :: log' => r :: successes log'
  | _ :: log' => successes log'
  end.

Definition is_xhr_send (e : Effect) : bool :=
  match e with
  | xhr_send _ => true
  | _ => false
  end.

(** The verdict of [beforeUpload], which does not depend on the state. *)
Definition accepts (file : File.t) : bool :=
  match result_of (beforeUpload file initialState) with
  | Normal ok => ok
  | Throw _ => false
  end.

(** The segments after the last dot that [beforeUpload] lets through. *)
Definition accepted_suffixes : list string :=
  ["cpp"; "hpp"; "h"; "c"; "cc"; "cxx"; "zip"; "tgz"].

(** * Properties *)

(** ** Validation gate *)

Section Extension.

Import JsString.

Lemma split_no_dot (s : string) :
  has_char "." s = false -> split "." s = [s].
Proof.
  induction s as [|c s IH]; simpl; [reflexivity|].
  destruct (Ascii.eqb c "."); simpl; [discriminate|].
  intros H. rewrite (IH H). reflexivity.
Qed.

Lemma split_with_dot (s : string) :
  has_char "." s = true ->
  exists seg seg' rest, split "." s = seg :: seg' :: rest.
Proof.
  induction s as [|c s IH]; simpl; [discriminate|].
  destruct (Ascii.eqb c ".") eqn:Hc; simpl.
  - intros _. destruct (has_char "." s) eqn:Hs.
    + destruct (IH eq_refl) as (a & b & r & ->). eauto.
    + rewrite (split_no_dot s Hs). eauto.
  - intros H. destruct (IH H) as (a & b & r & ->). eauto.
Qed.


Lemma has_char_append (c : ascii) (s1 s2 : string) :
  has_char c (s1 ++ s2) = has_char c s1 || has_char c s2.
Proof.
  induction s1 as [|d s1 IH]; simpl; [reflexivity|].
  rewrite IH. apply orb_assoc.
Qed.

(** The specification's function does return what follows the last
    dot. *)
Lemma text_after_final_dot_suffix (pre suf : string) :
  has_char "." suf = false ->
  text_after_final_dot (pre ++ "." ++ suf) = suf.
Proof.
  intros Hsuf. induction pre as [|c pre IH]; simpl.
  - rewrite Hsuf. reflexivity.
  - rewrite has_char_append. simpl. rewrite orb_true_r. exact IH.
Qed.

Lemma pop_split (s : string) :
  pop (split "." s) = Some (text_after_final_dot s).
Proof.
  unfold pop. induction s as [|c s IH]; [reflexivity|].
  cbn [split text_after_final_dot].
  destruct (has_char "." s) eqn:Hs.
  - destruct (split_with_dot s Hs) as (a & b & r & E).
    rewrite E in IH |- *.
    destruct (Ascii.eqb c "."); exact IH.
  - rewrite (split_no_dot s Hs).
    destruct (Ascii.eqb c "."); reflexivity.
Qed.

Lemma fileExtension_spec (name : string) :
  fileExtension name = "." ++ toLowerCase (text_after_final_dot name).
Proof. unfold fileExtension. rewrite pop_split. reflexivity. Qed.

Lemma append_assoc (s1 s2 s3 : string) :
  (s1 ++ s2) ++ s3 = s1 ++ (s2 ++ s3).
Proof. induction s1 as [|c s1 IH]; simpl; [|rewrite IH]; reflexivity. Qed.

End Extension.

(** What [beforeUpload] returns, case by case. *)
Lemma beforeUpload_cases (file : File.t) (s : State) :
  beforeUpload file s =
    let ext := fileExtension (File.name file) in
    if JsString.includes supportedExtensions ext then
      if File.size file >? maxFileSize
      then (Normal false, s, [message_error too_large_message])
      else (Normal true, s, [])
    else (Normal false, s, [message_error (unsupported_message ext)]).
Proof.
  unfold beforeUpload. cbv zeta.
  destruct (JsString.includes supportedExtensions _); simpl; [|reflexivity].
  destruct (File.size file >? maxFileSize); reflexivity.
Qed.

(** C4 (the code departs from the claim): a name ending in [.tar.gz] is
    given the extension [.gz], which is not in [supportedExtensions], so
    [beforeUpload] turns the file away as an unsupported type whatever its
    size; the entry [.tar.gz] of the list can never be matched. *)
Theorem beforeUpload_tar_gz_rejected (stem : string) (size : Z) (s : State) :
  fileExtension (stem ++ ".tar.gz") = ".gz" /\
  JsString.includes supportedExtensions ".tar.gz" = true /\
  beforeUpload (File.mk (stem ++ ".tar.gz") size) s =
    (Normal false, s, [message_error (unsupported_message ".gz")]).
Proof.
  assert (E : fileExtension (stem ++ ".tar.gz") = ".gz").
  { rewrite fileExtension_spec.
    replace (stem ++ ".tar.gz") with ((stem ++ ".tar") ++ "." ++ "gz")
      by (rewrite append_assoc; reflexivity).
    rewrite (text_after_final_dot_suffix (stem ++ ".tar") "gz" eq_refl).
    reflexivity. }
  split; [exact E|]. split; [reflexivity|].
  rewrite beforeUpload_cases. cbv zeta. simpl File.name. rewrite E.
  reflexivity.
Qed.


(** C5: for a file whose extension is supported, a size of exactly
    [maxFileSize] = 50 * 1024 * 1024 bytes passes, [maxFileSize + 1] is
    rejected with the "too large" message, and in general the rejection
    happens exactly for sizes strictly above the limit. *)
Theorem beforeUpload_size_boundary (name : string) (s : State) :
  JsString.includes supportedExtensions (fileExtension name) = true ->
  maxFileSize = 52428800 /\
  beforeUpload (File.mk name maxFileSize) s = (Normal true, s, []) /\
  beforeUpload (File.mk name (maxFileSize + 1)) s =
    (Normal false, s, [message_error too_large_message]) /\
  forall size : Z,
    beforeUpload (File.mk name size) s =
      (Normal false, s, [message_error too_large_message])
    <-> maxFileSize < size.
Proof.
  intros Hext. split; [reflexivity|].
  assert (Hcases : forall size, beforeUpload (File.mk name size) s =
            if size >? maxFileSize
            then (Normal false, s, [message_error too_large_message])
            else (Normal true, s, [])).
  { intros size. rewrite beforeUpload_cases. cbv zeta.
    cbn [File.name File.size]. rewrite Hext. reflexivity. }
  split; [|split].
  - rewrite Hcases. rewrite Z.gtb_ltb, Z.ltb_irrefl. reflexivity.
  - rewrite Hcases.
    replace (maxFileSize + 1 >? maxFileSize) with true; [reflexivity|].
    symmetry. rewrite Z.gtb_ltb. apply Z.ltb_lt. lia.
  - intros size. rewrite Hcases, Z.gtb_ltb.
    destruct (Z.ltb_spec maxFileSize size) as [Hlt|Hge].
    + split; [intros _; exact Hlt | reflexivity].
    + split; [discriminate | lia].
Qed.

Lemma beforeUpload_size_boundary_witness :
  beforeUpload (File.mk "main.cpp" (maxFileSize + 1)) initialState =
    (Normal false, initialState, [message_error too_large_message]).
Proof.
  exact (proj1 (proj2 (proj2
    (beforeUpload_size_boundary "main.cpp" initialState eq_refl)))).
Defined.







(** ** Running the monad *)

Lemma latest_cons (p q : JsNumber) (ps : list JsNumber) :
  latest p (q :: ps) = latest q ps.
Proof.
  unfold latest. revert p q.
  induction ps as [|r ps IH]; intros p q; [reflexivity|].
  change (List.last (q :: r :: ps) p) with (List.last (r :: ps) p).
  rewrite (IH p r), (IH q r). reflexivity.
Qed.

Lemma bind_run {A B} (m : M A) (k : A -> M B) (s : State) :
  bind m k s =
    match m s with
    | (Normal a, s1, l1) => let '(r, s2, l2) := k a s1 in (r, s2, (l1 ++ l2)%list)
    | (Throw e, s1, l1) => (Throw e, s1, l1)
    end.
Proof. reflexivity. Qed.

Section TransferFacts.

Variable JSON_parse : string -> JsError.t + UploadResponse.t.


(** The [load] listener, branch by branch. *)
Lemma load_listener_cases (status : Z) (text : string) (s : State) :
  load_listener JSON_parse status text s =
    if status =? 200 then
      match JSON_parse text with
      | inr response =>
          if UploadResponse.success response then
            (Normal tt,
             idle (uploadedFiles s ++ [UploadedFile.of_response response]),
             [JSON_parse_call text;
              message_success (UploadResponse.message response);
              onSuccess response])
          else
            let e := JsError.new_Error (UploadResponse.message response) in
            (Normal tt, idle (uploadedFiles s),
             [JSON_parse_call text;
              console_error "解析响应失败:" e;
              message_error "服务器响应格式错误";
              onError e])
      | inl e =>
          (Normal tt, idle (uploadedFiles s),
           [JSON_parse_call text;
            console_error "解析响应失败:" e;
            message_error "服务器响应格式错误";
            onError e])
      end
    else
      let msg := "上传失败: HTTP " ++ JsString.of_Z status in
      (Normal tt, idle (uploadedFiles s),
       [message_error msg; onError (JsError.new_Error msg)]).
Proof.
  unfold load_listener, parse, try_catch, bind, emit, throw, ret,
    setUploading, setUploadProgress, setUploadedFiles, idle.
  destruct (status =? 200); [|reflexivity].
  destruct (JSON_parse text) as [e|response]; [reflexivity|].
  destruct (UploadResponse.success response); reflexivity.
Qed.

Lemma error_listener_run (s : State) :
  error_listener s =
    (Normal tt, idle (uploadedFiles s),
     [message_error "网络错误，上传失败";
      onError (JsError.new_Error "网络错误，上传失败")]).
Proof. reflexivity. Qed.

Lemma progress_listener_run (event : ProgressEvent.t) (s : State) :
  progress_listener event s =
    if ProgressEvent.lengthComputable event then
      let p := percent_of (ProgressEvent.loaded event) (ProgressEvent.total event) in
      (Normal tt,
       {| uploading := uploading s; uploadProgress := p;
          uploadedFiles := uploadedFiles s |},
       [onProgress p])
    else (Normal tt, s, []).
Proof.
  unfold progress_listener. destruct (ProgressEvent.lengthComputable event);
    reflexivity.
Qed.

Lemma customUpload_run (file : File.t) (now : Z) (s : State) :
  customUpload file now None s =
    (Normal tt, in_flight (JsNumber.of_Z 0) (uploadedFiles s), request_log file now).
Proof. reflexivity. Qed.

Lemma customUpload_exception (file : File.t) (now : Z) (e : JsError.t) (s : State) :
  customUpload file now (Some e) s =
    (Normal tt, idle (uploadedFiles s),
     [xhr_open "POST" "/api/upload";
      console_error "上传异常:" e;
      message_error "上传过程中发生异常";
      onError e]).
Proof. reflexivity. Qed.

(** No listener lets an exception escape. *)
Lemma dispatch_normal (ev : XhrEvent) (s : State) :
  result_of (dispatch JSON_parse ev s) = Normal tt.
Proof.
  destruct ev as [event|status text|]; cbn [dispatch].
  - rewrite progress_listener_run.
    destruct (ProgressEvent.lengthComputable event); reflexivity.
  - rewrite load_listener_cases.
    destruct (status =? 200); [|reflexivity].
    destruct (JSON_parse text) as [e|r]; [reflexivity|].
    destruct (UploadResponse.success r); reflexivity.
  - reflexivity.
Qed.

Lemma deliver_cons (ev : XhrEvent) (rest : list XhrEvent) (s : State) :
  deliver JSON_parse (ev :: rest) s =
    let '(_, s1, l1) := dispatch JSON_parse ev s in
    let '(r, s2, l2) := deliver JSON_parse rest s1 in
    (r, s2, (l1 ++ l2)%list).
Proof.
  cbn [deliver]. rewrite bind_run.
  pose proof (dispatch_normal ev s) as H.
  destruct (dispatch JSON_parse ev s) as [[r s1] l1]. cbn in H. subst r. reflexivity.
Qed.

Lemma deliver_app (l1 l2 : list XhrEvent) (s : State) :
  deliver JSON_parse (l1 ++ l2) s =
    let '(_, s1, log1) := deliver JSON_parse l1 s in
    let '(r, s2, log2) := deliver JSON_parse l2 s1 in
    (r, s2, (log1 ++ log2)%list).
Proof.
  revert s. induction l1 as [|ev l1 IH]; intros s.
  - cbn [app]. cbn [deliver]. unfold ret at 1.
    destruct (deliver JSON_parse l2 s) as [[r s2] log2]. reflexivity.
  - cbn [app]. rewrite !deliver_cons.
    destruct (dispatch JSON_parse ev s) as [[r0 s0] log0].
    rewrite IH. destruct (deliver JSON_parse l1 s0) as [[r1 s1] log1].
    destruct (deliver JSON_parse l2 s1) as [[r2 s2] log2].
    rewrite app_assoc. reflexivity.
Qed.

(** Progress ticks only move the progress value and report it. *)
Lemma deliver_ticks (ticks : list ProgressEvent.t) (s : State) :
  deliver JSON_parse (List.map upload_progress ticks) s =
    (Normal tt,
     {| uploading := uploading s;
        uploadProgress := latest (uploadProgress s) (percents ticks);
        uploadedFiles := uploadedFiles s |},
     List.map onProgress (percents ticks)).
Proof.
  revert s. induction ticks as [|t ticks IH]; intros s.
  - destruct s; reflexivity.
  - cbn [List.map]. rewrite deliver_cons. cbn [dispatch].
    rewrite progress_listener_run. unfold percents in *.
    cbn [List.filter].
    destruct (ProgressEvent.lengthComputable t); cbv zeta.
    + rewrite IH. cbn [uploading uploadProgress uploadedFiles List.map app].
      rewrite latest_cons. reflexivity.
    + rewrite IH. reflexivity.
Qed.

(** A whole transfer on a well-formed event sequence: the request, the
    progress reports, then whatever the terminal listener does. *)
Lemma transfer_run (file : File.t) (now : Z) (ticks : list ProgressEvent.t)
    (terminal : XhrEvent) (s : State) :
  let busy :=
    in_flight (latest (JsNumber.of_Z 0) (percents ticks)) (uploadedFiles s) in
  transfer JSON_parse file now None (request_events ticks terminal) s =
    (Normal tt, state_of (dispatch JSON_parse terminal busy),
     (request_log file now ++ List.map onProgress (percents ticks)
        ++ log_of (dispatch JSON_parse terminal busy))%list).
Proof.
  unfold transfer, request_events. rewrite bind_run, customUpload_run.
  rewrite deliver_app, deliver_ticks.
  cbn [uploading uploadProgress uploadedFiles in_flight].
  rewrite deliver_cons. unfold in_flight.
  destruct (dispatch JSON_parse terminal _) as [[r s1] l1].
  cbn. rewrite app_nil_r. reflexivity.
Qed.

End TransferFacts.


(** ** Transfer engine *)

Lemma filter_terminal_prefix (file : File.t) (now : Z) (ps : list JsNumber)
    (l : list Effect) :
  List.filter is_terminal_callback
    (request_log file now ++ List.map onProgress ps ++ l) =
  List.filter is_terminal_callback l.
Proof.
  cbn [request_log app List.filter is_terminal_callback].
  induction ps as [|p ps IH]; [reflexivity|]. exact IH.
Qed.

Lemma filter_onSuccess_prefix (file : File.t) (now : Z) (ps : list JsNumber)
    (l : list Effect) :
  List.filter is_onSuccess
    (request_log file now ++ List.map onProgress ps ++ l) =
  List.filter is_onSuccess l.
Proof.
  cbn [request_log app List.filter is_onSuccess].
  induction ps as [|p ps IH]; [reflexivity|]. exact IH.
Qed.

Lemma In_parse_call_prefix (file : File.t) (now : Z) (ps : list JsNumber)
    (l : list Effect) (t : string) :
  In (JSON_parse_call t)
     (request_log file now ++ List.map onProgress ps ++ l) <->
  In (JSON_parse_call t) l.
Proof.
  rewrite !in_app_iff. split; [|tauto].
  intros [H|[H|H]]; [| |exact H].
  - cbn in H. destruct H as [H|[H|[]]]; discriminate H.
  - apply in_map_iff in H. destruct H as (p & H & _). discriminate H.
Qed.

Section TransferClaims.

Variable JSON_parse : string -> JsError.t + UploadResponse.t.


(** A [JSON.parse] call appears in the log of a transfer exactly when the
    response status is 200. *)
Lemma body_parsed_iff_200 (file : File.t) (now : Z)
    (ticks : list ProgressEvent.t) (status : Z) (text : string) (s : State) :
  (exists t, In (JSON_parse_call t)
     (log_of (transfer JSON_parse file now None (request_events ticks (load status text)) s)))
  <-> status = 200.
Proof.
  rewrite transfer_run. cbv zeta. cbn [dispatch].
  rewrite load_listener_cases. cbn [uploadedFiles in_flight].
  unfold log_of. cbn [snd].
  destruct (Z.eqb_spec status 200) as [->|Hne].
  - split; [reflexivity|]. intros _. exists text.
    apply In_parse_call_prefix.
    destruct (JSON_parse text) as [e|r]; [left; reflexivity|].
    destruct (UploadResponse.success r); left; reflexivity.
  - split; [|intros H; contradiction].
    intros (t & H). apply In_parse_call_prefix in H. cbn in H.
    destruct H as [H|[H|[]]]; discriminate H.
Qed.

(** C1 (as the code has it): the body of a response is parsed exactly
    when the status is 200.  For every other status, 201 to 299 included,
    the body is not looked at, the list of uploaded files is left as it
    was, and the transfer ends in [onError] with an [Error] whose message
    is "上传失败: HTTP " followed by the status in decimal (the same text
    is shown as an error toast). *)
Theorem load_parses_only_on_200 (file : File.t) (now : Z)
    (ticks : list ProgressEvent.t) (status : Z) (text : string) (s : State) :
  let run := transfer JSON_parse file now None (request_events ticks (load status text)) s in
  let msg := "上传失败: HTTP " ++ JsString.of_Z status in
  ((exists t, In (JSON_parse_call t) (log_of run)) <-> status = 200) /\
  (status <> 200 ->
   run = (Normal tt, idle (uploadedFiles s),
          (request_log file now ++ List.map onProgress (percents ticks)
             ++ [message_error msg; onError (JsError.new_Error msg)])%list)).
Proof.
  cbv zeta. split; [apply body_parsed_iff_200|].
  intros Hne. rewrite transfer_run. cbv zeta. cbn [dispatch].
  rewrite load_listener_cases. cbn [uploadedFiles in_flight].
  destruct (Z.eqb_spec status 200) as [E|_]; [contradiction|]. reflexivity.
Qed.

(** C2 (as the code has it): a response with status 200 whose body
    parses to an acknowledgment with [success = true] appends exactly one
    element to the end of [uploadedFiles]; it carries the seven fields of
    [file_info] and the [project_id] of the acknowledgment unchanged, and
    the transfer ends in [onSuccess]. *)
Theorem acknowledged_upload_appends_record (file : File.t) (now : Z)
    (ticks : list ProgressEvent.t) (text : string)
    (response : UploadResponse.t) (s : State) :
  JSON_parse text = inr response ->
  UploadResponse.success response = true ->
  let run := transfer JSON_parse file now None (request_events ticks (load 200 text)) s in
  let fi := UploadResponse.file_info response in
  uploadedFiles (state_of run) =
    (uploadedFiles s ++
     [ {| UploadedFile.filename := FileInfo.filename fi;
          UploadedFile.original_name := FileInfo.original_name fi;
          UploadedFile.size := FileInfo.size fi;
          UploadedFile.extension := FileInfo.extension fi;
          UploadedFile.upload_time := FileInfo.upload_time fi;
          UploadedFile.file_path := FileInfo.file_path fi;
          UploadedFile.status := FileInfo.status fi;
          UploadedFile.project_id := UploadResponse.project_id response |} ])%list /\
  List.filter is_terminal_callback (log_of run) = [onSuccess response].
Proof.
  intros Hparse Hok. cbv zeta. rewrite transfer_run. cbv zeta. cbn [dispatch].
  rewrite load_listener_cases. cbn [uploadedFiles in_flight Z.eqb Pos.eqb].
  rewrite Hparse, Hok. unfold state_of, log_of. cbn [fst snd].
  split; [reflexivity|].
  rewrite filter_terminal_prefix. reflexivity.
Qed.

(** C3 (as the code has it): when a response with status 200 carries a
    body that parses to an acknowledgment whose [success] is false, the
    transfer ends in exactly one terminal callback, [onError] with an
    [Error] whose message is the acknowledgment's [message]; nothing is
    appended.  (The toast shown on this path is the fixed text
    "服务器响应格式错误".)  With any other status, 201 to 299 included, the
    same body is not read: the [Error] passed to [onError] carries
    "上传失败: HTTP " and the status, not the acknowledgment's message. *)
Theorem unsuccessful_acknowledgment_reports_its_message (file : File.t)
    (now : Z) (ticks : list ProgressEvent.t) (status : Z) (text : string)
    (response : UploadResponse.t) (s : State) :
  let run := transfer JSON_parse file now None (request_events ticks (load status text)) s in
  JSON_parse text = inr response ->
  UploadResponse.success response = false ->
  let e := JsError.new_Error (UploadResponse.message response) in
  let http := JsError.new_Error ("上传失败: HTTP " ++ JsString.of_Z status) in
  JsError.message e = UploadResponse.message response /\
  (status = 200 ->
   List.filter is_terminal_callback (log_of run) = [onError e] /\
   run = (Normal tt, idle (uploadedFiles s),
          (request_log file now ++ List.map onProgress (percents ticks)
             ++ [JSON_parse_call text;
                 console_error "解析响应失败:" e;
                 message_error "服务器响应格式错误";
                 onError e])%list)) /\
  (status <> 200 ->
   List.filter is_terminal_callback (log_of run) = [onError http] /\
   uploadedFiles (state_of run) = uploadedFiles s).
Proof.
  cbv zeta. intros Hparse Hnok.
  rewrite transfer_run. cbv zeta. cbn [dispatch].
  rewrite load_listener_cases. cbn [uploadedFiles in_flight].
  split; [reflexivity|]. split.
  - intros ->. cbn [Z.eqb Pos.eqb].
    rewrite Hparse, Hnok. cbv zeta. unfold state_of, log_of. cbn [fst snd].
    split; [|reflexivity].
    rewrite filter_terminal_prefix. reflexivity.
  - intros Hne. destruct (Z.eqb_spec status 200) as [E|_]; [contradiction|].
    unfold state_of, log_of. cbn [fst snd uploadedFiles idle].
    split; [|reflexivity].
    rewrite filter_terminal_prefix. reflexivity.
Qed.

(** What [beforeUpload] does is the same in every state, and it never
    touches the state. *)
Lemma beforeUpload_run (file : File.t) :
  exists (ok : bool) (l : list Effect),
    List.filter is_onSuccess l = [] /\
    forall s, beforeUpload file s = (Normal ok, s, l).
Proof.
  pose proof (beforeUpload_cases file) as H. cbv zeta in H.
  destruct (JsString.includes supportedExtensions _).
  - destruct (File.size file >? maxFileSize); eexists _, _; split;
      try exact H; reflexivity.
  - eexists _, _; split; try exact H; reflexivity.
Qed.

Lemma terminal_listener_idle (terminal : XhrEvent) (s : State) :
  is_terminal terminal = true ->
  exists files, state_of (dispatch JSON_parse terminal s) = idle files.
Proof.
  destruct terminal as [ev|status text|]; [discriminate| |]; intros _.
  - cbn [dispatch]. rewrite load_listener_cases.
    destruct (status =? 200); [|eexists; reflexivity].
    destruct (JSON_parse text) as [e|r]; [eexists; reflexivity|].
    destruct (UploadResponse.success r); eexists; reflexivity.
  - eexists; reflexivity.
Qed.

(** Run a transfer up to and including its terminal listener. *)
Ltac run_terminal :=
  rewrite transfer_run; cbv zeta; cbn [dispatch];
  rewrite ?load_listener_cases, ?error_listener_run.

(** Close a goal "the list is unchanged and [onSuccess] was not called"
    once the run is a literal triple. *)
Ltac keeps_list :=
  unfold state_of, log_of; cbn [fst snd app];
  split; [reflexivity | apply filter_onSuccess_prefix].

(** C8: whichever way a submission fails (turned away by
    [beforeUpload], exception while sending, transport error, status other
    than 200, unparsable body, acknowledgment with [success = false]),
    [uploadedFiles] after the attempt is the list from before it, and
    [onSuccess] is never called. *)
Theorem failed_transfer_keeps_uploadedFiles (file : File.t) (now : Z)
    (send_exn : option JsError.t) (events : list XhrEvent) (s : State) :
  Failure JSON_parse file send_exn events ->
  let run := upload JSON_parse file now send_exn events s in
  uploadedFiles (state_of run) = uploadedFiles s /\
  List.filter is_onSuccess (log_of run) = [].
Proof.
  intros Hfail. cbv zeta. unfold upload. rewrite bind_run.
  destruct (beforeUpload_run file) as (ok & l & Hl & Hrun).
  rewrite Hrun.
  destruct ok; [|split; [reflexivity|]; cbn; rewrite app_nil_r; exact Hl].
  assert (Hl' : l = []).
  { specialize (Hrun initialState). rewrite beforeUpload_cases in Hrun.
    cbv zeta in Hrun.
    destruct (JsString.includes _ _); [|discriminate Hrun].
    destruct (_ >? _); [discriminate Hrun|]. congruence. }
  subst l. clear Hl.
  destruct Hfail as [send_exn events Hpol|e events|ticks|ticks status text Hne
                    |ticks text e Hp|ticks text r Hp Hnok].
  - rewrite Hrun in Hpol. discriminate Hpol.
  - unfold transfer. rewrite bind_run, customUpload_exception.
    split; reflexivity.
  - run_terminal. keeps_list.
  - run_terminal.
    destruct (Z.eqb_spec status 200) as [E|_]; [contradiction|]. keeps_list.
  - run_terminal. cbn [Z.eqb Pos.eqb]. rewrite Hp. keeps_list.
  - run_terminal. cbn [Z.eqb Pos.eqb]. rewrite Hp, Hnok. keeps_list.
Qed.

(** C10: [customUpload] sets the in-flight flag and puts the progress at
    0 before anything else happens; the flag stays set while progress
    ticks arrive; and whichever way the transfer ends (a [load] event with
    any status and body, an [error] event, or an exception while sending)
    the flag is cleared and the progress is back at 0. *)
Theorem transfer_flags_set_then_restored (file : File.t) (now : Z)
    (send_exn : option JsError.t) (ticks : list ProgressEvent.t)
    (terminal : XhrEvent) (s : State) :
  is_terminal terminal = true ->
  customUpload file now None s =
    (Normal tt, in_flight (JsNumber.of_Z 0) (uploadedFiles s),
     request_log file now) /\
  uploading
    (state_of (bind (customUpload file now None)
                 (fun _ => deliver JSON_parse (List.map upload_progress ticks)) s))
    = true /\
  (let run := transfer JSON_parse file now send_exn (request_events ticks terminal) s in
   uploading (state_of run) = false /\
   uploadProgress (state_of run) = JsNumber.of_Z 0).
Proof.
  intros Hterm. split; [reflexivity|]. split.
  - rewrite bind_run, customUpload_run, deliver_ticks. reflexivity.
  - cbv zeta. destruct send_exn as [e|].
    + unfold transfer. rewrite bind_run, customUpload_exception.
      split; reflexivity.
    + rewrite transfer_run. cbv zeta.
      destruct (terminal_listener_idle terminal
                  (in_flight (latest (JsNumber.of_Z 0) (percents ticks))
                     (uploadedFiles s)) Hterm) as (files & E).
      unfold state_of in *. cbn [fst snd]. rewrite E. split; reflexivity.
Qed.

End TransferClaims.

Lemma load_parses_only_on_200_witness :
  transfer Sample.JSON_parse Sample.main_cpp 17 None
    (request_events [] (load 404 "Not Found")) initialState =
  (Normal tt, initialState,
   (request_log Sample.main_cpp 17 ++
    [message_error "上传失败: HTTP 404";
     onError (JsError.new_Error "上传失败: HTTP 404")])%list).
Proof.
  apply (proj2 (load_parses_only_on_200 Sample.JSON_parse Sample.main_cpp 17 [] 404 "Not Found"
                  initialState)).
  discriminate.
Defined.

Lemma failed_transfer_keeps_uploadedFiles_witness :
  uploadedFiles
    (state_of (upload Sample.JSON_parse Sample.main_cpp 17 None
                 (request_events [Sample.tick 512 1024] (load 200 "{"))
                 (idle [UploadedFile.of_response Sample.ack]))) =
  [UploadedFile.of_response Sample.ack].
Proof.
  exact (proj1 (failed_transfer_keeps_uploadedFiles Sample.JSON_parse
                  Sample.main_cpp 17 None _
                  (idle [UploadedFile.of_response Sample.ack])
                  (fail_malformed Sample.JSON_parse Sample.main_cpp
                     [Sample.tick 512 1024] "{" Sample.syntax_error
                     eq_refl))).
Defined.

Lemma transfer_flags_set_then_restored_witness :
  uploading
    (state_of (transfer Sample.JSON_parse Sample.main_cpp 17 None
                 (request_events [Sample.tick 512 1024] error)
                 initialState)) = false.
Proof.
  exact (proj1 (proj2 (proj2 (transfer_flags_set_then_restored
                  Sample.JSON_parse Sample.main_cpp 17 None
                  [Sample.tick 512 1024] error initialState
                  eq_refl)))).
Defined.

Lemma acknowledged_upload_appends_record_witness :
  uploadedFiles
    (state_of (transfer Sample.JSON_parse Sample.main_cpp 17 None
                 (request_events [] (load 200 "ack")) initialState)) =
  [UploadedFile.of_response Sample.ack].
Proof.
  exact (proj1 (acknowledged_upload_appends_record Sample.JSON_parse
                  Sample.main_cpp 17 [] "ack" Sample.ack initialState
                  eq_refl eq_refl)).
Defined.

Lemma unsuccessful_acknowledgment_reports_its_message_witness :
  List.filter is_terminal_callback
    (log_of (transfer Sample.JSON_parse Sample.main_cpp 17 None
               (request_events [] (load 200 "nack")) initialState)) =
  [onError (JsError.new_Error "project rejected")].
Proof.
  exact (proj1 (proj1 (proj2 (unsuccessful_acknowledgment_reports_its_message
                  Sample.JSON_parse Sample.main_cpp 17 [] 200 "nack"
                  Sample.nack initialState eq_refl eq_refl)) eq_refl)).
Defined.

(** C1, as stated, fails at status 201: the status is within 200..299,
    yet the body is not parsed and the transfer is reported as failed. *)
Lemma status_201_body_not_parsed :
  200 <= 201 <= 299 /\
  Sample.JSON_parse "ack" = inr Sample.ack /\
  log_of (transfer Sample.JSON_parse Sample.main_cpp 17 None
            (request_events [] (load 201 "ack")) initialState) =
  (request_log Sample.main_cpp 17 ++
   [message_error "上传失败: HTTP 201";
    onError (JsError.new_Error "上传失败: HTTP 201")])%list.
Proof. split; [lia|]. split; reflexivity. Qed.

(** C2, as stated, fails at status 201: the body is an acknowledgment
    with [success = true], and no record is appended. *)
Lemma status_201_nothing_appended :
  200 <= 201 <= 299 /\
  Sample.JSON_parse "ack" = inr Sample.ack /\
  UploadResponse.success Sample.ack = true /\
  uploadedFiles
    (state_of (transfer Sample.JSON_parse Sample.main_cpp 17 None
                 (request_events [] (load 201 "ack")) initialState)) = [].
Proof. split; [lia|]. repeat split; reflexivity. Qed.

(** C3, as stated, fails at status 201: the body parses to an
    acknowledgment with [success = false], and the [Error] passed to
    [onError] carries the HTTP status text, not the acknowledgment's
    message. *)
Lemma status_201_message_not_reported :
  200 <= 201 <= 299 /\
  Sample.JSON_parse "nack" = inr Sample.nack /\
  UploadResponse.success Sample.nack = false /\
  UploadResponse.message Sample.nack = "project rejected" /\
  List.filter is_terminal_callback
    (log_of (transfer Sample.JSON_parse Sample.main_cpp 17 None
               (request_events [] (load 201 "nack")) initialState)) =
  [onError (JsError.new_Error "上传失败: HTTP 201")] /\
  String.eqb (JsError.message (JsError.new_Error "上传失败: HTTP 201"))
             (UploadResponse.message Sample.nack) = false.
Proof. split; [lia|]. repeat split; reflexivity. Qed.

(** ** Result list *)

(** Filtering out one index is deleting that position. *)
Lemma filter_from_delete {A} (index k : Z) (l : list A) :
  filter_from (fun _ i => negb (i =? index)) k l =
    if index <? k then l else delete (Z.to_nat (index - k)) l.
Proof.
  revert k. induction l as [|x l IH]; intros k.
  - cbn. destruct (index <? k); reflexivity.
  - cbn [filter_from]. rewrite IH.
    destruct (Z.eqb_spec k index) as [->|Hne]; cbn [negb].
    + rewrite Z.sub_diag.
      destruct (Z.ltb_spec index (index + 1)); [|lia].
      destruct (Z.ltb_spec index index); [lia|]. reflexivity.
    + destruct (Z.ltb_spec index k); destruct (Z.ltb_spec index (k + 1));
        try lia; [reflexivity|].
      replace (Z.to_nat (index - k)) with (S (Z.to_nat (index - (k + 1))))
        by lia.
      reflexivity.
Qed.

(** C9: [removeFile index] never throws and reports no error (it shows
    the "removed" toast).  For [0 <= index < n] the new list is the old one
    without position [index]: it is one shorter, the positions before
    [index] are unchanged, the later ones move down by one, and it is a
    sublist of the old list, so the relative order is kept.  For any
    other index the list is unchanged. *)
Theorem removeFile_deletes_position (index : Z) (s : State) :
  let files := uploadedFiles s in
  let run := removeFile index s in
  let files' := uploadedFiles (state_of run) in
  result_of run = Normal tt /\
  log_of run = [message_success "文件已从列表中移除"] /\
  (0 <= index < Z.of_nat (length files) ->
     let i := Z.to_nat index in
     files' = (take i files ++ drop (S i) files)%list /\
     length files' = (length files - 1)%nat /\
     (forall j : nat, (j < i)%nat -> files' !! j = files !! j) /\
     (forall j : nat, (i <= j)%nat -> files' !! j = files !! S j) /\
     sublist files' files) /\
  (~ (0 <= index < Z.of_nat (length files)) -> files' = files).
Proof.
  cbv zeta. split; [reflexivity|]. split; [reflexivity|].
  unfold removeFile, state_of, bind, setUploadedFiles, emit.
  cbn [fst snd uploadedFiles]. rewrite filter_from_delete.
  rewrite Z.sub_0_r.
  destruct (Z.ltb_spec index 0) as [Hneg|Hpos].
  - split; [lia|reflexivity].
  - split.
    + intros [_ Hlt]. split; [apply delete_take_drop|]. split.
      { rewrite length_delete; [reflexivity|].
        apply lookup_lt_is_Some_2. lia. }
      split; [intros j Hj; apply list_lookup_delete_lt; exact Hj|].
      split; [intros j Hj; apply list_lookup_delete_ge; exact Hj|].
      apply sublist_delete.
    + intros Hout. rewrite delete_take_drop.
      rewrite take_ge, drop_ge by lia. apply app_nil_r.
Qed.

Lemma removeFile_deletes_position_witness :
  uploadedFiles
    (state_of (removeFile 0
       (idle [UploadedFile.of_response Sample.ack;
              UploadedFile.of_response Sample.nack]))) =
  [UploadedFile.of_response Sample.nack].
Proof.
  destruct (removeFile_deletes_position 0
              (idle [UploadedFile.of_response Sample.ack;
                     UploadedFile.of_response Sample.nack]))
    as (_ & _ & H & _).
  refine (proj1 (H _)). cbn. lia.
Defined.

(** ** Binary64 arithmetic of the progress percentage

    [percent_of] runs on [SpecFloat]'s binary64 operations.  The lemmas
    below describe them exactly on the operands that occur: the shifter
    [shr] and the rounding step of [binary_round_aux] compute [rne]; the
    conversion of an integer below [2^53], the division of two such doubles
    and the multiplication by 100 are each a [rounded] value; and rounding
    is monotone.  They give [percent_of loaded total] as the double of the
    integer [percent_Z loaded total], which grows with [loaded] and is 100
    at [loaded = total]. *)

Lemma digits2_pos_log2 (p : positive) :
  Z.pos (digits2_pos p) = Z.log2 (Z.pos p) + 1.
Proof.
  induction p as [p IH|p IH|]; cbn [digits2_pos]; [| |reflexivity].
  - rewrite Pos2Z.inj_succ, IH. 
    rewrite (Pos2Z.inj_xI p). rewrite Z.log2_succ_double by lia. lia.
  - rewrite Pos2Z.inj_succ, IH.
    rewrite (Pos2Z.inj_xO p). rewrite Z.log2_double by lia. lia.
Qed.

Lemma Zdigits2_log2 (m : Z) : 0 < m -> Zdigits2 m = Z.log2 m + 1.
Proof. destruct m; try lia. intros _. apply digits2_pos_log2. Qed.

Lemma iter_pos_nat {A} (f : A -> A) (p : positive) (x : A) :
  SpecFloat.iter_pos f p x = Nat.iter (Pos.to_nat p) f x.
Proof.
  revert x. induction p as [p IH|p IH|]; intros x; cbn [SpecFloat.iter_pos].
  - rewrite !IH. rewrite Pos2Nat.inj_xI.
    replace (S (2 * Pos.to_nat p))%nat with (Pos.to_nat p + (Pos.to_nat p + 1))%nat by lia.
    rewrite !Nat.iter_add. reflexivity.
  - rewrite !IH. rewrite Pos2Nat.inj_xO.
    replace (2 * Pos.to_nat p)%nat with (Pos.to_nat p + Pos.to_nat p)%nat by lia.
    rewrite Nat.iter_add. reflexivity.
  - reflexivity.
Qed.

Lemma shr_1_nonneg (m : Z) (r s : bool) :
  0 <= m ->
  shr_1 (Build_shr_record m r s) = Build_shr_record (m / 2) (Z.odd m) (r || s).
Proof.
  intros Hm. destruct m as [|p|p]; [reflexivity| |lia].
  destruct p as [p|p|]; cbn [shr_1 Z.odd]; [| |reflexivity].
  - replace (Z.pos p~1 / 2) with (Z.pos p); [reflexivity|].
    rewrite Pos2Z.inj_xI. apply (Z.div_unique_pos _ _ _ 1); lia.
  - replace (Z.pos p~0 / 2) with (Z.pos p); [reflexivity|].
    rewrite Pos2Z.inj_xO. apply (Z.div_unique_pos _ _ _ 0); lia.
Qed.

(** State of the shifter after [n] steps. *)
Lemma shr_iter (n : nat) (m : Z) (r s : bool) :
  0 <= m ->
  Nat.iter (S n) shr_1 (Build_shr_record m r s) =
    Build_shr_record (m / 2 ^ Z.of_nat (S n))
                     (Z.odd (m / 2 ^ Z.of_nat n))
                     (r || s || negb (m mod 2 ^ Z.of_nat n =? 0)).
Proof.
  intros Hm. induction n as [|n IH].
  - cbn [Nat.iter]. rewrite shr_1_nonneg by exact Hm.
    change (2 ^ Z.of_nat 1) with 2. change (2 ^ Z.of_nat 0) with 1.
    rewrite Z.div_1_r, Z.mod_1_r. cbn. rewrite orb_false_r. reflexivity.
  - change (Nat.iter (S (S n)) shr_1 ?x) with (shr_1 (Nat.iter (S n) shr_1 x)).
    rewrite IH. rewrite shr_1_nonneg by (apply Z.div_pos; lia).
    f_equal.
    + rewrite Z.div_div by lia. f_equal.
      rewrite (Nat2Z.inj_succ (S n)), Z.pow_succ_r by lia. lia.
    + assert (Hp : 0 < 2 ^ Z.of_nat n) by (apply Z.pow_pos_nonneg; lia).
      rewrite (Nat2Z.inj_succ n), Z.pow_succ_r by lia.
      (* m mod 2^(n+1) = 0 iff m mod 2^n = 0 and (m / 2^n) even *)
      rewrite (Z.mul_comm 2), Z.rem_mul_r by lia.
      rewrite <- Z.negb_even.
      rewrite Zeven_mod.
      pose proof (Z.mod_pos_bound m (2 ^ Z.of_nat n) Hp) as HX.
      pose proof (Z.mod_pos_bound (m / 2 ^ Z.of_nat n) 2 ltac:(lia)) as HY.
      destruct (Z.eqb_spec (m mod 2 ^ Z.of_nat n) 0) as [E|E];
        destruct (Z.eqb_spec ((m / 2 ^ Z.of_nat n) mod 2) 0) as [E2|E2];
        destruct (Z.eqb_spec (m mod 2 ^ Z.of_nat n +
                   2 ^ Z.of_nat n * ((m / 2 ^ Z.of_nat n) mod 2)) 0) as [E3|E3];
        destruct r, s; cbn; try reflexivity; exfalso; nia.
Qed.

Lemma new_location_cases (b r : Z) :
  0 < b -> 0 <= r < b ->
  new_location b r =
    if r =? 0 then loc_Exact else loc_Inexact (2 * r ?= b).
Proof.
  intros Hb Hr. unfold new_location, new_location_even, new_location_odd.
  destruct (Z.even b) eqn:Hev; cbv beta; [reflexivity|].
  destruct (Z.eqb_spec r 0) as [E|E]; [reflexivity|].
  f_equal.
  assert (Hodd : Z.odd b = true) by (rewrite <- Z.negb_even, Hev; reflexivity).
  apply Z.odd_spec in Hodd. destruct Hodd as [k Hk].
  destruct (Z.compare_spec (2 * r + 1) b); destruct (Z.compare_spec (2 * r) b);
    try reflexivity; exfalso; lia.
Qed.

Lemma round_new_location (a b : Z) :
  0 <= a -> 0 < b ->
  round_nearest_even (a / b) (new_location b (a mod b)) = rne a b.
Proof.
  intros Ha Hb. pose proof (Z.mod_pos_bound a b Hb) as Hr.
  rewrite new_location_cases by assumption. unfold rne. cbv zeta.
  destruct (Z.eqb_spec (a mod b) 0) as [E|E].
  - rewrite E. cbn [round_nearest_even].
    destruct (Z.compare_spec (2 * 0) b); first [reflexivity | lia].
  - cbn [round_nearest_even]. destruct (2 * (a mod b) ?= b); reflexivity.
Qed.

Lemma shr_rne (n : nat) (a b : Z) :
  0 <= a -> 0 < b ->
  let mrs := Nat.iter n shr_1
               (shr_record_of_loc (a / b) (new_location b (a mod b))) in
  round_nearest_even (shr_m mrs) (loc_of_shr_record mrs) =
    rne a (b * 2 ^ Z.of_nat n).
Proof.
  intros Ha Hb. cbv zeta. destruct n as [|k].
  - cbn [Nat.iter]. change (2 ^ Z.of_nat 0) with 1. rewrite Z.mul_1_r.
    rewrite <- round_new_location by assumption.
    destruct (new_location b (a mod b)) as [|[]]; reflexivity.
  - pose proof (Z.mod_pos_bound a b Hb) as Hr.
    assert (Hq : 0 <= a / b) by (apply Z.div_pos; lia).
    assert (Hp : 0 < 2 ^ Z.of_nat k) by (apply Z.pow_pos_nonneg; lia).
    set (B := b * 2 ^ Z.of_nat k).
    assert (HB : 0 < B) by (unfold B; lia).
    assert (HQ : a / b / 2 ^ Z.of_nat k = a / B) by (unfold B; apply Z.div_div; lia).
    assert (HR : a mod B = a mod b + b * ((a / b) mod 2 ^ Z.of_nat k))
      by (unfold B; apply Z.rem_mul_r; lia).
    pose proof (Z.mod_pos_bound (a / b) (2 ^ Z.of_nat k) Hp) as Hr2.
    pose proof (Z.mod_pos_bound a B HB) as HrB.
    assert (Hsticky : forall r0 s0, r0 || s0 = negb (a mod b =? 0) ->
              r0 || s0 || negb ((a / b) mod 2 ^ Z.of_nat k =? 0)
              = negb (a mod B =? 0)).
    { intros r0 s0 E0. rewrite E0, HR.
      destruct (Z.eqb_spec (a mod b) 0); destruct (Z.eqb_spec ((a / b) mod 2 ^ Z.of_nat k) 0);
        destruct (Z.eqb_spec (a mod b + b * ((a / b) mod 2 ^ Z.of_nat k)) 0);
        cbn; try reflexivity; exfalso; nia. }
    assert (Hrec : exists r0 s0,
               shr_record_of_loc (a / b) (new_location b (a mod b)) =
               Build_shr_record (a / b) r0 s0 /\ r0 || s0 = negb (a mod b =? 0)).
    { rewrite new_location_cases by assumption.
      destruct (Z.eqb_spec (a mod b) 0); cbn [shr_record_of_loc negb].
      - exists false, false. split; reflexivity.
      - destruct (2 * (a mod b) ?= b); eexists _, _; split; reflexivity. }
    destruct Hrec as (r0 & s0 & -> & Hrs).
    rewrite shr_iter by exact Hq. cbn [shr_m].
    rewrite (Hsticky r0 s0 Hrs), HQ.
    replace (a / b / 2 ^ Z.of_nat (S k)) with (a / B / 2).
    2:{ rewrite Nat2Z.inj_succ, Z.pow_succ_r by lia.
        rewrite (Z.mul_comm 2), <- Z.div_div by lia. rewrite HQ. reflexivity. }
    replace (b * 2 ^ Z.of_nat (S k)) with (B * 2).
    2:{ rewrite Nat2Z.inj_succ, Z.pow_succ_r by lia. unfold B. ring. }
    unfold rne. cbv zeta.
    rewrite <- (Z.div_div a B 2) by lia.
    rewrite (Z.rem_mul_r a B 2) by lia.
    pose proof (Z.mod_pos_bound (a / B) 2 ltac:(lia)) as Hbit.
    rewrite <- Z.negb_even, Zeven_mod.
    destruct (Z.eqb_spec ((a / B) mod 2) 0) as [E2|E2];
      destruct (Z.eqb_spec (a mod B) 0) as [E3|E3]; cbn [negb loc_of_shr_record round_nearest_even].
    + destruct (Z.compare_spec (2 * (a mod B + B * ((a / B) mod 2))) (B * 2)); try (exfalso; nia). reflexivity.
    + destruct (Z.compare_spec (2 * (a mod B + B * ((a / B) mod 2))) (B * 2)); try (exfalso; nia). reflexivity.
    + destruct (Z.compare_spec (2 * (a mod B + B * ((a / B) mod 2))) (B * 2)); try (exfalso; nia). reflexivity.
    + destruct (Z.compare_spec (2 * (a mod B + B * ((a / B) mod 2))) (B * 2)); try (exfalso; nia). reflexivity.
Qed.

Lemma shr_nat (mrs : shr_record) (e : Z) (n : nat) :
  shr mrs e (Z.of_nat n) = (Nat.iter n shr_1 mrs, e + Z.of_nat n).
Proof.
  unfold shr. destruct n as [|k].
  - cbn. rewrite Z.add_0_r. reflexivity.
  - change (Z.of_nat (S k)) with (Z.pos (Pos.of_succ_nat k)). cbv iota.
    rewrite iter_pos_nat, SuccNat2Pos.id_succ. reflexivity.
Qed.

Lemma shr_fexp_spec (m e : Z) (l : location) (n : nat) :
  2 ^ (52 + Z.of_nat n) <= m < 2 ^ (53 + Z.of_nat n) ->
  -1074 <= e + Z.of_nat n ->
  shr_fexp JsNumber.prec JsNumber.emax m e l =
    (Nat.iter n shr_1 (shr_record_of_loc m l), e + Z.of_nat n).
Proof.
  intros Hm He. unfold shr_fexp.
  assert (Hpos : 0 < m).
  { assert (0 < 2 ^ (52 + Z.of_nat n)) by (apply Z.pow_pos_nonneg; lia). lia. }
  rewrite Zdigits2_log2 by exact Hpos.
  rewrite (Z.log2_unique m (52 + Z.of_nat n)).
  2: lia.
  2:{ replace (Z.succ (52 + Z.of_nat n)) with (53 + Z.of_nat n) by lia. exact Hm. }
  unfold fexp, SpecFloat.emin, JsNumber.prec, JsNumber.emax.
  replace (Z.max (52 + Z.of_nat n + 1 + e - 53) (3 - 1024 - 53) - e)
    with (Z.of_nat n) by lia.
  apply shr_nat.
Qed.

Lemma rne_bounds (a B lo hi : Z) :
  0 < B -> lo * B <= a < hi * B -> lo <= rne a B <= hi.
Proof.
  intros HB Ha. unfold rne. cbv zeta.
  pose proof (Z.mod_pos_bound a B HB) as Hr.
  pose proof (Z.div_mod a B ltac:(lia)) as Hdm.
  assert (lo <= a / B < hi) by nia.
  destruct (2 * (a mod B) ?= B); [destruct (Z.even (a / B))| |]; lia.
Qed.

Lemma binary_round_aux_spec (a b e : Z) (n : nat) :
  0 < b ->
  2 ^ 52 * (b * 2 ^ Z.of_nat n) <= a < 2 ^ 53 * (b * 2 ^ Z.of_nat n) ->
  -1074 <= e + Z.of_nat n -> e + Z.of_nat n + 1 <= 971 ->
  binary_round_aux JsNumber.prec JsNumber.emax false (a / b) e (new_location b (a mod b)) =
    let m := rne a (b * 2 ^ Z.of_nat n) in
    if m <? 2 ^ 53 then S754_finite false (Z.to_pos m) (e + Z.of_nat n)
    else S754_finite false (Z.to_pos (2 ^ 52)) (e + Z.of_nat n + 1).
Proof.
  intros Hb Ha He1 He2.
  assert (Hp : 0 < 2 ^ Z.of_nat n) by (apply Z.pow_pos_nonneg; lia).
  assert (Ha0 : 0 <= a) by nia.
  assert (Hq : 2 ^ (52 + Z.of_nat n) <= a / b < 2 ^ (53 + Z.of_nat n)).
  { rewrite !Z.pow_add_r by lia.
    split.
    - apply Z.div_le_lower_bound; [lia|]. nia.
    - apply Z.div_lt_upper_bound; [lia|]. nia. }
  unfold binary_round_aux.
  rewrite (shr_fexp_spec _ _ _ n Hq He1).
  rewrite (shr_rne n a b Ha0 Hb).
  pose proof (rne_bounds a (b * 2 ^ Z.of_nat n) (2 ^ 52) (2 ^ 53) ltac:(lia) Ha) as Hm.
  set (m := rne a (b * 2 ^ Z.of_nat n)) in *. cbv zeta.
  destruct (Z.ltb_spec m (2 ^ 53)) as [Hlt|Hge].
  - rewrite (shr_fexp_spec m _ loc_Exact 0%nat).
    2:{ cbn [Z.of_nat]. rewrite !Z.add_0_r. lia. }
    2:{ cbn [Z.of_nat]. lia. }
    cbn [Nat.iter shr_record_of_loc shr_m Z.of_nat]. rewrite !Z.add_0_r.
    destruct m as [|pm|pm]; [exfalso; cbn in Hm; lia| |exfalso; lia].
    destruct (Z.leb_spec (e + Z.of_nat n) (JsNumber.emax - JsNumber.prec)) as [_|Hbad];
      [reflexivity|unfold JsNumber.emax, JsNumber.prec in Hbad; lia].
  - assert (Em : m = 2 ^ 53) by lia. rewrite Em.
    rewrite (shr_fexp_spec (2 ^ 53) _ loc_Exact 1%nat).
    2:{ cbn. lia. }
    2:{ cbn [Z.of_nat]. lia. }
    cbn [Nat.iter shr_record_of_loc]. 
    rewrite shr_1_nonneg by (cbn; lia).
    cbn [shr_m]. change (2 ^ 53 / 2) with (2 ^ 52).
    change (Z.of_nat 1) with 1.
    change (2 ^ 52) with (Z.pos (Z.to_pos (2 ^ 52))) at 1. cbv iota.
    destruct (Z.leb_spec (e + Z.of_nat n + 1) (JsNumber.emax - JsNumber.prec)) as [_|Hbad];
      [reflexivity|unfold JsNumber.emax, JsNumber.prec in Hbad; lia].
Qed.

Lemma rne_exact (a : Z) : rne a 1 = a.
Proof.
  unfold rne. cbv zeta. rewrite Z.mod_1_r, Z.div_1_r. reflexivity.
Qed.

Lemma binary_round_aux_exact (m e : Z) :
  2 ^ 52 <= m < 2 ^ 53 -> -1074 <= e <= 970 ->
  binary_round_aux JsNumber.prec JsNumber.emax false m e loc_Exact =
    S754_finite false (Z.to_pos m) e.
Proof.
  intros Hm He.
  pose proof (binary_round_aux_spec m 1 e 0 ltac:(lia)) as H.
  cbn [Z.of_nat] in H. rewrite Z.pow_0_r, !Z.mul_1_r, !Z.add_0_r in H.
  rewrite Z.div_1_r, Z.mod_1_r in H. change (new_location 1 0) with loc_Exact in H.
  rewrite H by lia. cbv zeta. rewrite rne_exact.
  destruct (Z.ltb_spec m (2 ^ 53)); [reflexivity|lia].
Qed.

Lemma mant_bounds (n : Z) : 0 < n < 2 ^ 53 -> 2 ^ 52 <= mant n < 2 ^ 53.
Proof.
  intros Hn. unfold mant.
  pose proof (Z.log2_spec n ltac:(lia)) as Hl.
  pose proof (Z.log2_nonneg n) as Hl0.
  assert (Hl53 : Z.log2 n < 53) by (apply Z.log2_lt_pow2; lia).
  replace (2 ^ 52) with (2 ^ Z.log2 n * 2 ^ (52 - Z.log2 n))
    by (rewrite <- Z.pow_add_r by lia; f_equal; lia).
  replace (2 ^ 53) with (2 ^ Z.succ (Z.log2 n) * 2 ^ (52 - Z.log2 n))
    by (rewrite <- Z.pow_add_r by lia; f_equal; lia).
  assert (0 < 2 ^ (52 - Z.log2 n)) by (apply Z.pow_pos_nonneg; lia).
  nia.
Qed.

Lemma pos_iter_xO (p d : positive) :
  Z.pos (Pos.iter xO p d) = Z.pos p * 2 ^ Z.pos d.
Proof.
  rewrite <- Z.shiftl_mul_pow2 by lia. unfold Z.shiftl.
  apply (Pos.iter_swap_gen _ _ Z.pos xO (Z.mul 2)). reflexivity.
Qed.

Lemma of_Z_pos (n : Z) :
  0 < n < 2 ^ 53 ->
  JsNumber.of_Z n = S754_finite false (Z.to_pos (mant n)) (expo n).
Proof.
  intros Hn. pose proof (mant_bounds n Hn) as Hm.
  pose proof (Z.log2_nonneg n) as Hl0.
  assert (Hl53 : Z.log2 n < 53) by (apply Z.log2_lt_pow2; lia).
  destruct n as [|p|p]; try lia.
  unfold JsNumber.of_Z, binary_normalize, binary_round.
  rewrite digits2_pos_log2.
  unfold fexp, SpecFloat.emin, JsNumber.prec, JsNumber.emax, shl_align.
  replace (Z.max (Z.log2 (Z.pos p) + 1 + 0 - 53) (3 - 1024 - 53) - 0)
    with (Z.log2 (Z.pos p) - 52) by lia.
  replace (Z.max (Z.log2 (Z.pos p) + 1 + 0 - 53) (3 - 1024 - 53))
    with (Z.log2 (Z.pos p) - 52) by lia.
  fold JsNumber.prec JsNumber.emax.
  destruct (Z.log2 (Z.pos p) - 52) as [|d|d] eqn:Ed; try lia.
  - rewrite binary_round_aux_exact.
    + unfold mant, expo. rewrite Ed.
      replace (52 - Z.log2 (Z.pos p)) with 0 by lia.
      rewrite Z.pow_0_r, Z.mul_1_r. reflexivity.
    + unfold mant in Hm. replace (52 - Z.log2 (Z.pos p)) with 0 in Hm by lia.
      rewrite Z.pow_0_r, Z.mul_1_r in Hm. exact Hm.
    + lia.
  - rewrite pos_iter_xO.
    assert (Em : Z.pos p * 2 ^ Z.pos d = mant (Z.pos p)).
    { unfold mant. f_equal. f_equal. lia. }
    rewrite Em. rewrite binary_round_aux_exact by (try exact Hm; lia).
    unfold expo. rewrite Ed. reflexivity.
Qed.

Lemma div_eucl_div_mod (a b : Z) : Z.div_eucl a b = (a / b, a mod b).
Proof. unfold Z.div, Z.modulo. destruct (Z.div_eucl a b). reflexivity. Qed.

Lemma fdiv_spec (mx my : positive) (ex ey : Z) :
  2 ^ 52 <= Z.pos mx < 2 ^ 53 -> 2 ^ 52 <= Z.pos my < 2 ^ 53 ->
  -1074 <= ex - ey - 53 -> ex - ey - 53 <= 969 ->
  JsNumber.div (S754_finite false mx ex) (S754_finite false my ey) =
    rounded (Z.pos mx * 2 ^ 53) (Z.pos my) (ex - ey - 53)
            (if Z.pos mx <? Z.pos my then 0 else 1).
Proof.
  intros Hx Hy He1 He2.
  unfold JsNumber.div, SFdiv, SFdiv_core_binary.
  cbn [xorb Zdigits2]. rewrite !digits2_pos_log2.
  rewrite (Z.log2_unique (Z.pos mx) 52) by (change (Z.succ 52) with 53; lia).
  rewrite (Z.log2_unique (Z.pos my) 52) by (change (Z.succ 52) with 53; lia).
  unfold fexp, SpecFloat.emin, JsNumber.prec, JsNumber.emax.
  replace (Z.min (Z.max (52 + 1 + ex - (52 + 1 + ey) - 53) (3 - 1024 - 53)) (ex - ey))
    with (ex - ey - 53) by lia.
  replace (ex - ey - (ex - ey - 53)) with 53 by lia.
  cbv iota. rewrite Z.shiftl_mul_pow2 by lia.
  rewrite div_eucl_div_mod. fold JsNumber.prec JsNumber.emax.
  set (a := Z.pos mx * 2 ^ 53). set (b := Z.pos my).
  destruct (Z.ltb_spec (Z.pos mx) b) as [Hlt|Hge].
  - apply (binary_round_aux_spec a b (ex - ey - 53) 0); unfold a, b; cbn [Z.of_nat]; lia.
  - apply (binary_round_aux_spec a b (ex - ey - 53) 1); unfold a, b; cbn [Z.of_nat];
      change (2 ^ Z.pos 1) with 2; lia.
Qed.

Lemma of_Z_100 : JsNumber.of_Z 100 = S754_finite false (Z.to_pos hundred_m) (-46).
Proof. reflexivity. Qed.

Lemma fmul_100_spec (mx : positive) (ex : Z) :
  2 ^ 52 <= Z.pos mx < 2 ^ 53 -> -1074 <= ex + 6 -> ex + 8 <= 971 ->
  JsNumber.mul (S754_finite false mx ex) (JsNumber.of_Z 100) =
    rounded (Z.pos mx * hundred_m) 1 (ex - 46)
            (if Z.pos mx * hundred_m <? 2 ^ 105 then 52 else 53).
Proof.
  intros Hx He1 He2. rewrite of_Z_100.
  unfold JsNumber.mul, SFmul. cbn [xorb].
  change (Z.pos (mx * Z.to_pos hundred_m)) with (Z.pos mx * hundred_m).
  set (P := Z.pos mx * hundred_m).
  replace (ex + -46) with (ex - 46) by lia.
  pose proof (binary_round_aux_spec P 1 (ex - 46)) as H.
  rewrite Z.div_1_r, Z.mod_1_r in H. change (new_location 1 0) with loc_Exact in H.
  destruct (Z.ltb_spec P (2 ^ 105)) as [Hlt|Hge]; apply H; unfold P, hundred_m in *;
    cbn [Z.of_nat]; try lia.
Qed.

Lemma rne_mono (a1 b1 a2 b2 : Z) :
  0 < b1 -> 0 < b2 -> 0 <= a1 -> a1 * b2 <= a2 * b1 ->
  rne a1 b1 <= rne a2 b2.
Proof.
  intros Hb1 Hb2 Ha1 Hle.
  pose proof (Z.mod_pos_bound a1 b1 Hb1) as Hr1.
  pose proof (Z.mod_pos_bound a2 b2 Hb2) as Hr2.
  pose proof (Z.div_mod a1 b1 ltac:(lia)) as Hd1.
  pose proof (Z.div_mod a2 b2 ltac:(lia)) as Hd2.
  assert (Hq : a1 / b1 <= a2 / b2).
  { apply Z.div_le_lower_bound; [lia|].
    assert (b1 * (b2 * (a1 / b1)) <= b1 * a2) by nia.
    nia. }
  unfold rne. cbv zeta.
  set (q1 := a1 / b1) in *. set (q2 := a2 / b2) in *.
  set (r1 := a1 mod b1) in *. set (r2 := a2 mod b2) in *.
  assert (Hcross : q1 = q2 -> r1 * b2 <= r2 * b1) by (intros E; nia).
  destruct (Z.compare_spec (2 * r1) b1) as [E1|E1|E1];
    destruct (Z.compare_spec (2 * r2) b2) as [E2|E2|E2];
    try destruct (Z.even q1) eqn:Ev1; try destruct (Z.even q2) eqn:Ev2;
    try lia.
  all: destruct (Z.eq_dec q1 q2) as [E|E]; [|lia].
  all: try (rewrite E in Ev1; congruence).
  all: exfalso; specialize (Hcross E); nia.
Qed.

Lemma rounded_normal (a b e : Z) (n : nat) :
  0 < b ->
  2 ^ 52 * (b * 2 ^ Z.of_nat n) <= a < 2 ^ 53 * (b * 2 ^ Z.of_nat n) ->
  normal (e + Z.of_nat n) (e + Z.of_nat n + 1) (rounded a b e n).
Proof.
  intros Hb Ha.
  assert (Hp : 0 < 2 ^ Z.of_nat n) by (apply Z.pow_pos_nonneg; lia).
  pose proof (rne_bounds a (b * 2 ^ Z.of_nat n) (2 ^ 52) (2 ^ 53) ltac:(lia) Ha) as Hm.
  unfold rounded. cbv zeta.
  destruct (Z.ltb_spec (rne a (b * 2 ^ Z.of_nat n)) (2 ^ 53)); cbn [normal].
  - rewrite Z2Pos.id by lia. lia.
  - cbn. lia.
Qed.

Lemma rounded_mono (a1 b1 e1 : Z) (n1 : nat) (a2 b2 e2 : Z) (n2 : nat) :
  0 < b1 -> 0 < b2 ->
  2 ^ 52 * (b1 * 2 ^ Z.of_nat n1) <= a1 < 2 ^ 53 * (b1 * 2 ^ Z.of_nat n1) ->
  2 ^ 52 * (b2 * 2 ^ Z.of_nat n2) <= a2 < 2 ^ 53 * (b2 * 2 ^ Z.of_nat n2) ->
  e1 + Z.of_nat n1 < e2 + Z.of_nat n2 \/
  (e1 + Z.of_nat n1 = e2 + Z.of_nat n2 /\
   a1 * (b2 * 2 ^ Z.of_nat n2) <= a2 * (b1 * 2 ^ Z.of_nat n1)) ->
  Fle (rounded a1 b1 e1 n1) (rounded a2 b2 e2 n2).
Proof.
  intros Hb1 Hb2 Ha1 Ha2 Hord.
  assert (Hp1 : 0 < 2 ^ Z.of_nat n1) by (apply Z.pow_pos_nonneg; lia).
  assert (Hp2 : 0 < 2 ^ Z.of_nat n2) by (apply Z.pow_pos_nonneg; lia).
  pose proof (rne_bounds a1 (b1 * 2 ^ Z.of_nat n1) (2 ^ 52) (2 ^ 53) ltac:(lia) Ha1) as Hm1.
  pose proof (rne_bounds a2 (b2 * 2 ^ Z.of_nat n2) (2 ^ 52) (2 ^ 53) ltac:(lia) Ha2) as Hm2.
  assert (Hmono : e1 + Z.of_nat n1 = e2 + Z.of_nat n2 ->
            rne a1 (b1 * 2 ^ Z.of_nat n1) <= rne a2 (b2 * 2 ^ Z.of_nat n2)).
  { intros E. apply rne_mono; first [lia | nia]. }
  unfold rounded. cbv zeta.
  destruct (Z.ltb_spec (rne a1 (b1 * 2 ^ Z.of_nat n1)) (2 ^ 53));
    destruct (Z.ltb_spec (rne a2 (b2 * 2 ^ Z.of_nat n2)) (2 ^ 53));
    cbn [Fle]; rewrite ?Z2Pos.id by lia; lia.
Qed.

Lemma fdiv_mono (mx1 mx2 my : positive) (ex1 ex2 ey : Z) :
  2 ^ 52 <= Z.pos mx1 < 2 ^ 53 -> 2 ^ 52 <= Z.pos mx2 < 2 ^ 53 ->
  2 ^ 52 <= Z.pos my < 2 ^ 53 ->
  -1074 <= ex1 - ey - 53 -> ex2 - ey - 53 <= 969 ->
  Fle (S754_finite false mx1 ex1) (S754_finite false mx2 ex2) ->
  Fle (JsNumber.div (S754_finite false mx1 ex1) (S754_finite false my ey))
      (JsNumber.div (S754_finite false mx2 ex2) (S754_finite false my ey)).
Proof.
  intros H1 H2 Hy He1 He2 Hle. cbn [Fle] in Hle.
  rewrite !fdiv_spec by (try assumption; lia).
  apply rounded_mono; try lia.
  - destruct (Z.ltb_spec (Z.pos mx1) (Z.pos my)); cbn [Z.of_nat];
      [change (2 ^ 0) with 1 | change (2 ^ Z.pos 1) with 2]; lia.
  - destruct (Z.ltb_spec (Z.pos mx2) (Z.pos my)); cbn [Z.of_nat];
      [change (2 ^ 0) with 1 | change (2 ^ Z.pos 1) with 2]; lia.
  - destruct (Z.ltb_spec (Z.pos mx1) (Z.pos my));
      destruct (Z.ltb_spec (Z.pos mx2) (Z.pos my)); cbn [Z.of_nat];
      change (2 ^ 0) with 1; change (2 ^ Z.pos 1) with 2; nia.
Qed.

Lemma fdiv_normal (mx my : positive) (ex ey : Z) :
  2 ^ 52 <= Z.pos mx < 2 ^ 53 -> 2 ^ 52 <= Z.pos my < 2 ^ 53 ->
  -1074 <= ex - ey - 53 -> ex - ey - 53 <= 969 ->
  normal (ex - ey - 53) (ex - ey - 51)
         (JsNumber.div (S754_finite false mx ex) (S754_finite false my ey)).
Proof.
  intros Hx Hy He1 He2. rewrite fdiv_spec by assumption.
  pose proof (rounded_normal (Z.pos mx * 2 ^ 53) (Z.pos my) (ex - ey - 53)
                (if Z.pos mx <? Z.pos my then 0%nat else 1%nat) ltac:(lia)) as H.
  destruct (rounded _ _ _ _) as [| | |[|] m e]; cbn [normal] in *;
    destruct (Z.ltb_spec (Z.pos mx) (Z.pos my)); cbn [Z.of_nat] in H;
    change (2 ^ 0) with 1 in H; change (2 ^ Z.pos 1) with 2 in H; lia.
Qed.

Lemma fmul_100_mono (mx1 mx2 : positive) (ex1 ex2 : Z) :
  2 ^ 52 <= Z.pos mx1 < 2 ^ 53 -> 2 ^ 52 <= Z.pos mx2 < 2 ^ 53 ->
  -1074 <= ex1 + 6 -> ex2 + 8 <= 971 ->
  Fle (S754_finite false mx1 ex1) (S754_finite false mx2 ex2) ->
  Fle (JsNumber.mul (S754_finite false mx1 ex1) (JsNumber.of_Z 100))
      (JsNumber.mul (S754_finite false mx2 ex2) (JsNumber.of_Z 100)).
Proof.
  intros H1 H2 He1 He2 Hle. cbn [Fle] in Hle.
  rewrite !fmul_100_spec by (try assumption; lia).
  unfold hundred_m.
  apply rounded_mono; try lia.
  - destruct (Z.ltb_spec (Z.pos mx1 * 7036874417766400) (2 ^ 105)); cbn [Z.of_nat]; lia.
  - destruct (Z.ltb_spec (Z.pos mx2 * 7036874417766400) (2 ^ 105)); cbn [Z.of_nat]; lia.
  - destruct (Z.ltb_spec (Z.pos mx1 * 7036874417766400) (2 ^ 105));
      destruct (Z.ltb_spec (Z.pos mx2 * 7036874417766400) (2 ^ 105)); cbn [Z.of_nat]; lia.
Qed.

Lemma fmul_100_normal (mx : positive) (ex : Z) :
  2 ^ 52 <= Z.pos mx < 2 ^ 53 -> -1074 <= ex + 6 -> ex + 8 <= 971 ->
  normal (ex + 6) (ex + 8) (JsNumber.mul (S754_finite false mx ex) (JsNumber.of_Z 100)).
Proof.
  intros Hx He1 He2. rewrite fmul_100_spec by assumption.
  pose proof (rounded_normal (Z.pos mx * hundred_m) 1 (ex - 46)
                (if Z.pos mx * hundred_m <? 2 ^ 105 then 52%nat else 53%nat) ltac:(lia)) as H.
  unfold hundred_m in *.
  destruct (rounded _ _ _ _) as [| | |[|] m e]; cbn [normal] in *;
    destruct (Z.ltb_spec (Z.pos mx * 7036874417766400) (2 ^ 105)); cbn [Z.of_nat] in H; lia.
Qed.

Lemma round_Z_mono (m1 e1 m2 e2 : Z) :
  2 ^ 52 <= m1 < 2 ^ 53 -> 2 ^ 52 <= m2 < 2 ^ 53 -> e2 < 0 ->
  e1 < e2 \/ (e1 = e2 /\ m1 <= m2) ->
  round_Z m1 e1 <= round_Z m2 e2.
Proof.
  intros H1 H2 Hneg [Hlt|[-> Hle]]; unfold round_Z.
  - set (A := 2 ^ (- e2)). set (J := 2 ^ (e2 - e1)).
    assert (HA : 0 < A) by (apply Z.pow_pos_nonneg; lia).
    assert (HJ : 2 <= J).
    { unfold J. change 2 with (2 ^ 1) at 1. apply Z.pow_le_mono_r; lia. }
    assert (E1 : 2 ^ (- e1) = A * J).
    { unfold A, J. rewrite <- Z.pow_add_r by lia. f_equal. lia. }
    assert (E2 : 2 ^ (- e1 + 1) = 2 * A * J).
    { rewrite Z.pow_add_r by lia. rewrite E1. change (2 ^ 1) with 2. ring. }
    assert (E3 : 2 ^ (- e2 + 1) = 2 * A).
    { rewrite Z.pow_add_r by lia. fold A. change (2 ^ 1) with 2. ring. }
    rewrite E1, E2, E3.
    rewrite <- (Z.div_mul_cancel_r (2 * m2 + A) (2 * A) J) by lia.
    replace (2 * A * J) with (2 * A * J) by ring.
    apply Z.div_le_mono; nia.
  - apply Z.div_le_mono; [apply Z.pow_pos_nonneg; lia | lia].
Qed.

Lemma of_Z_normal (n : Z) :
  0 < n < 2 ^ 53 ->
  JsNumber.of_Z n = S754_finite false (Z.to_pos (mant n)) (expo n) /\
  2 ^ 52 <= Z.pos (Z.to_pos (mant n)) < 2 ^ 53 /\ -52 <= expo n <= 0.
Proof.
  intros Hn. split; [apply of_Z_pos; exact Hn|].
  pose proof (mant_bounds n Hn). rewrite Z2Pos.id by lia.
  split; [assumption|]. unfold expo.
  pose proof (Z.log2_nonneg n).
  assert (Z.log2 n < 53) by (apply Z.log2_lt_pow2; lia). lia.
Qed.

Lemma of_Z_mono (n1 n2 : Z) :
  0 < n1 -> n1 <= n2 -> n2 < 2 ^ 53 ->
  Fle (JsNumber.of_Z n1) (JsNumber.of_Z n2).
Proof.
  intros H0 Hle H2.
  destruct (of_Z_normal n1 ltac:(lia)) as (-> & Hm1 & _).
  destruct (of_Z_normal n2 ltac:(lia)) as (-> & Hm2 & _).
  cbn [Fle]. rewrite !Z2Pos.id by lia.
  pose proof (Z.log2_le_mono n1 n2 Hle) as Hl.
  unfold expo, mant.
  destruct (Z.eq_dec (Z.log2 n1) (Z.log2 n2)) as [E|E]; [right|left; lia].
  split; [lia|]. rewrite E.
  apply Z.mul_le_mono_nonneg_r; [apply Z.pow_nonneg; lia | exact Hle].
Qed.

(** The product before rounding to an integer, for [0 < loaded <= total]. *)
Lemma scaled_normal (l t : Z) :
  0 < l -> l <= t -> t < 2 ^ 53 ->
  normal (-99) (-43) (JsNumber.mul (JsNumber.div (JsNumber.of_Z l) (JsNumber.of_Z t)) (JsNumber.of_Z 100)).
Proof.
  intros H0 Hle Ht.
  destruct (of_Z_normal l ltac:(lia)) as (El & Hml & Hel).
  destruct (of_Z_normal t ltac:(lia)) as (Et & Hmt & Het).
  pose proof (of_Z_mono l t H0 Hle Ht) as Hlt.
  rewrite El, Et in *. cbn [Fle] in Hlt.
  pose proof (fdiv_normal _ _ (expo l) (expo t) Hml Hmt ltac:(lia) ltac:(lia)) as Hd.
  destruct (JsNumber.div _ _) as [| | |[|] md ed]; cbn [normal] in Hd; try contradiction.
  pose proof (fmul_100_normal md ed ltac:(lia) ltac:(lia) ltac:(lia)) as Hz.
  destruct (JsNumber.mul _ _) as [| | |[|] mz ez]; cbn [normal] in Hz |- *; try contradiction.
  lia.
Qed.

Lemma percent_of_integer (l t : Z) :
  0 < t < 2 ^ 53 -> 0 <= l <= t ->
  percent_of l t = JsNumber.of_Z (percent_Z l t).
Proof.
  intros Ht Hl. unfold percent_of, percent_Z.
  destruct (Z.eq_dec l 0) as [->|Hne].
  - destruct (of_Z_normal t Ht) as (-> & _). reflexivity.
  - pose proof (scaled_normal l t ltac:(lia) ltac:(lia) ltac:(lia)) as Hz.
    destruct (JsNumber.mul _ _) as [| | |[|] mz ez]; cbn [normal] in Hz; try contradiction.
    cbn [JsNumber.round]. destruct (Z.leb_spec 0 ez); [lia|].
    fold (round_Z (Z.pos mz) ez).
    destruct (Z.eqb_spec (round_Z (Z.pos mz) ez) 0) as [->|]; reflexivity.
Qed.

Lemma percent_Z_nonneg (l t : Z) : 0 <= percent_Z l t.
Proof.
  unfold percent_Z. destruct (JsNumber.mul _ _) as [| | |[|] m e]; try lia.
  unfold round_Z. apply Z_div_nonneg_nonneg; [|apply Z.pow_nonneg; lia].
  pose proof (Z.pow_nonneg 2 (- e)). lia.
Qed.

Lemma percent_Z_zero (t : Z) : 0 < t < 2 ^ 53 -> percent_Z 0 t = 0.
Proof.
  intros Ht. unfold percent_Z.
  destruct (of_Z_normal t Ht) as (-> & _). reflexivity.
Qed.

Lemma percent_Z_mono (l1 l2 t : Z) :
  0 < t < 2 ^ 53 -> 0 <= l1 -> l1 <= l2 -> l2 <= t ->
  percent_Z l1 t <= percent_Z l2 t.
Proof.
  intros Ht H0 H12 H2.
  destruct (Z.eq_dec l1 0) as [->|Hne].
  { rewrite percent_Z_zero by exact Ht. apply percent_Z_nonneg. }
  pose proof (scaled_normal l1 t ltac:(lia) ltac:(lia) ltac:(lia)) as Hz1.
  pose proof (scaled_normal l2 t ltac:(lia) ltac:(lia) ltac:(lia)) as Hz2.
  assert (Hle : Fle (JsNumber.mul (JsNumber.div (JsNumber.of_Z l1) (JsNumber.of_Z t)) (JsNumber.of_Z 100))
                    (JsNumber.mul (JsNumber.div (JsNumber.of_Z l2) (JsNumber.of_Z t)) (JsNumber.of_Z 100))).
  { destruct (of_Z_normal l1 ltac:(lia)) as (E1 & Hm1 & He1).
    destruct (of_Z_normal l2 ltac:(lia)) as (E2 & Hm2 & He2).
    destruct (of_Z_normal t ltac:(lia)) as (Et & Hmt & Het).
    pose proof (of_Z_mono l1 l2 ltac:(lia) H12 ltac:(lia)) as H12'.
    rewrite E1, E2, Et in *.
    pose proof (fdiv_normal _ _ (expo l1) (expo t) Hm1 Hmt ltac:(lia) ltac:(lia)) as Hd1.
    pose proof (fdiv_normal _ _ (expo l2) (expo t) Hm2 Hmt ltac:(lia) ltac:(lia)) as Hd2.
    pose proof (fdiv_mono _ _ _ (expo l1) (expo l2) (expo t) Hm1 Hm2 Hmt
                  ltac:(lia) ltac:(lia) H12') as Hd.
    destruct (JsNumber.div (S754_finite false (Z.to_pos (mant l1)) (expo l1)) _)
      as [| | |[|] md1 ed1]; cbn [normal] in Hd1; try contradiction.
    destruct (JsNumber.div (S754_finite false (Z.to_pos (mant l2)) (expo l2)) _)
      as [| | |[|] md2 ed2]; cbn [normal] in Hd2; try contradiction.
    apply fmul_100_mono; try lia. exact Hd. }
  unfold percent_Z.
  destruct (JsNumber.mul (JsNumber.div (JsNumber.of_Z l1) (JsNumber.of_Z t)) (JsNumber.of_Z 100)) as [| | |[|] m1 e1];
    cbn [normal] in Hz1; try contradiction.
  destruct (JsNumber.mul (JsNumber.div (JsNumber.of_Z l2) (JsNumber.of_Z t)) (JsNumber.of_Z 100)) as [| | |[|] m2 e2];
    cbn [normal] in Hz2; try contradiction.
  cbn [Fle] in Hle. apply round_Z_mono; lia.
Qed.

Lemma rne_half (m : Z) : 0 < m -> rne (m * 2 ^ 53) (m * 2 ^ Z.of_nat 1) = 2 ^ 52.
Proof.
  intros Hm. unfold rne. cbv zeta. change (2 ^ Z.of_nat 1) with 2.
  change (2 ^ 53) with (2 ^ 52 * 2).
  replace (m * (2 ^ 52 * 2)) with (2 ^ 52 * (m * 2)) by ring.
  rewrite Z.mod_mul, Z.div_mul by lia.
  destruct (Z.compare_spec (2 * 0) (m * 2)); first [reflexivity | lia].
Qed.

Lemma percent_Z_full (t : Z) : 0 < t < 2 ^ 53 -> percent_Z t t = 100.
Proof.
  intros Ht. unfold percent_Z.
  destruct (of_Z_normal t Ht) as (-> & Hm & He).
  rewrite fdiv_spec by (try assumption; lia).
  rewrite Z.ltb_irrefl. unfold rounded. cbv zeta.
  rewrite rne_half by lia.
  replace (expo t - expo t - 53 + Z.of_nat 1) with (-52) by lia.
  reflexivity.
Qed.

(** ** Progress reports of one transfer *)

Lemma filter_callback_prefix (file : File.t) (now : Z) (ps : list JsNumber)
    (l : list Effect) :
  List.filter is_callback
    (request_log file now ++ List.map onProgress ps ++ l) =
  (List.map onProgress ps ++ List.filter is_callback l)%list.
Proof.
  cbn [request_log app List.filter is_callback].
  induction ps as [|p ps IH]; [reflexivity|].
  cbn [List.map app List.filter is_callback]. rewrite IH. reflexivity.
Qed.

Lemma terminal_listener_one_callback
    (JSON_parse : string -> JsError.t + UploadResponse.t)
    (terminal : XhrEvent) (s : State) :
  is_terminal terminal = true ->
  exists final : Effect,
    List.filter is_callback (log_of (dispatch JSON_parse terminal s)) = [final] /\
    is_terminal_callback final = true.
Proof.
  destruct terminal as [ev|status text|]; [discriminate| |]; intros _.
  - cbn [dispatch]. rewrite load_listener_cases.
    destruct (status =? 200); [|eexists; split; reflexivity].
    destruct (JSON_parse text) as [e|r]; [eexists; split; reflexivity|].
    destruct (UploadResponse.success r); eexists; split; reflexivity.
  - eexists; split; reflexivity.
Qed.

(** Under the tick discipline of XMLHttpRequest the reported values are
    the doubles of integers between 0 and 100 that never go down. *)
Lemma percents_integers (total : Z) (ticks : list ProgressEvent.t) :
  upload_ticks total ticks ->
  exists zs : list Z,
    percents ticks = List.map JsNumber.of_Z zs /\
    Sorted Z.le zs /\
    Forall (fun z => 0 <= z <= 100) zs.
Proof.
  unfold upload_ticks, percents. cbv zeta.
  set (known := List.filter ProgressEvent.lengthComputable ticks).
  intros (Ht & Hall & Hsorted).
  exists (List.map (fun ev => percent_Z (ProgressEvent.loaded ev) total) known).
  clearbody known. induction known as [|ev known IH].
  - repeat split; constructor.
  - apply Forall_cons_1 in Hall. destruct Hall as ((Etot & Hload) & Hall).
    cbn [List.map] in Hsorted. apply Sorted_inv in Hsorted.
    destruct Hsorted as (Hsorted & Hhd).
    destruct (IH Hall Hsorted) as (IHeq & IHsorted & IHrange).
    cbn [List.map]. split; [|split].
    + rewrite Etot, IHeq. f_equal. apply percent_of_integer; assumption.
    + constructor; [exact IHsorted|].
      destruct known as [|ev' known']; constructor.
      cbn [List.map] in Hhd. apply HdRel_inv in Hhd.
      apply Forall_cons_1 in Hall. destruct Hall as ((_ & Hload') & _).
      apply percent_Z_mono; lia.
    + constructor; [|exact IHrange]. split; [apply percent_Z_nonneg|].
      rewrite <- (percent_Z_full total Ht).
      apply percent_Z_mono; lia.
Qed.

(** C7: on the events of one request (upload progress ticks, then one
    [load] or [error]), a progress report is made exactly for the ticks
    whose total is known, each with the value
    [Math.round((loaded / total) * 100)]; under the tick discipline of
    XMLHttpRequest these values are the doubles of integers between 0 and
    100 in non-decreasing order; and the reports are followed by exactly
    one terminal callback ([onSuccess] or [onError]), after which nothing
    is delivered. *)
Theorem progress_reports_then_one_terminal
    (JSON_parse : string -> JsError.t + UploadResponse.t)
    (file : File.t) (now total : Z) (ticks : list ProgressEvent.t)
    (terminal : XhrEvent) (s : State) :
  is_terminal terminal = true ->
  upload_ticks total ticks ->
  let run := transfer JSON_parse file now None (request_events ticks terminal) s in
  let reports :=
    List.map (fun ev => onProgress
                (JsNumber.round
                   (JsNumber.mul
                      (JsNumber.div (JsNumber.of_Z (ProgressEvent.loaded ev))
                                    (JsNumber.of_Z (ProgressEvent.total ev)))
                      (JsNumber.of_Z 100))))
             (List.filter ProgressEvent.lengthComputable ticks) in
  exists (zs : list Z) (final : Effect),
    List.filter is_callback (log_of run) = (reports ++ [final])%list /\
    is_terminal_callback final = true /\
    reports = List.map (fun z => onProgress (JsNumber.of_Z z)) zs /\
    Sorted Z.le zs /\
    Forall (fun z => 0 <= z <= 100) zs.
Proof.
  intros Hterm Hticks. cbv zeta.
  destruct (percents_integers total ticks Hticks) as (zs & Hzs & Hsorted & Hrange).
  rewrite transfer_run. cbv zeta. unfold log_of at 1. cbn [snd].
  rewrite filter_callback_prefix.
  destruct (terminal_listener_one_callback JSON_parse terminal
              (in_flight (latest (JsNumber.of_Z 0) (percents ticks))
                 (uploadedFiles s)) Hterm) as (final & Hfinal & Hkind).
  exists zs, final. rewrite Hfinal.
  assert (Hreports :
    List.map onProgress (percents ticks) =
    List.map (fun ev => onProgress
                (JsNumber.round
                   (JsNumber.mul
                      (JsNumber.div (JsNumber.of_Z (ProgressEvent.loaded ev))
                                    (JsNumber.of_Z (ProgressEvent.total ev)))
                      (JsNumber.of_Z 100))))
             (List.filter ProgressEvent.lengthComputable ticks)).
  { unfold percents. rewrite List.map_map. reflexivity. }
  rewrite <- Hreports. split; [reflexivity|]. split; [exact Hkind|].
  split; [|split; assumption].
  rewrite Hzs, List.map_map. reflexivity.
Qed.

Lemma progress_reports_then_one_terminal_witness :
  exists (zs : list Z) (final : Effect),
    List.filter is_callback
      (log_of (transfer Sample.JSON_parse Sample.main_cpp 17 None
                 (request_events
                    [Sample.tick 100 1024; Sample.tick 460 1024;
                     ProgressEvent.mk false 700 0; Sample.tick 1024 1024]
                    (load 200 "ack")) initialState)) =
      ([onProgress (JsNumber.of_Z 10); onProgress (JsNumber.of_Z 45);
        onProgress (JsNumber.of_Z 100)] ++ [final])%list /\
    is_terminal_callback final = true /\
    [onProgress (JsNumber.of_Z 10); onProgress (JsNumber.of_Z 45);
     onProgress (JsNumber.of_Z 100)] =
      List.map (fun z => onProgress (JsNumber.of_Z z)) zs /\
    Sorted Z.le zs /\
    Forall (fun z => 0 <= z <= 100) zs.
Proof.
  refine (progress_reports_then_one_terminal Sample.JSON_parse Sample.main_cpp
            17 1024
            [Sample.tick 100 1024; Sample.tick 460 1024;
             ProgressEvent.mk false 700 0; Sample.tick 1024 1024]
            (load 200 "ack") initialState eq_refl _).
  unfold upload_ticks, Sample.tick. cbn.
  split; [lia|]. split.
  - repeat (apply List.Forall_cons; [cbn; lia|]).
    apply List.Forall_nil.
  - repeat (apply Sorted_cons; [|try (apply HdRel_cons; lia)]);
      [apply Sorted_nil | apply HdRel_nil].
Defined.

(** * Further properties *)

(** ** The validation gate, continued *)

Lemma lower_ascii_dot (c : ascii) :
  Ascii.eqb (JsString.lower_ascii c) "." = Ascii.eqb c ".".
Proof. destruct c as [[] [] [] [] [] [] [] []]; reflexivity. Qed.

Lemma has_char_toLowerCase (s : string) :
  JsString.has_char "." (JsString.toLowerCase s) = JsString.has_char "." s.
Proof.
  induction s as [|c s IH]; [reflexivity|].
  cbn [JsString.toLowerCase JsString.has_char].
  rewrite lower_ascii_dot, IH. reflexivity.
Qed.

(** Lower-casing commutes with taking the text after the last dot. *)
Lemma text_after_final_dot_toLowerCase (s : string) :
  text_after_final_dot (JsString.toLowerCase s) =
  JsString.toLowerCase (text_after_final_dot s).
Proof.
  induction s as [|c s IH]; [reflexivity|].
  cbn [JsString.toLowerCase text_after_final_dot].
  rewrite has_char_toLowerCase, lower_ascii_dot.
  destruct (JsString.has_char "." s); [exact IH|].
  destruct (Ascii.eqb c "."); reflexivity.
Qed.

Lemma has_char_text_after_final_dot (s : string) :
  JsString.has_char "." (text_after_final_dot s) = false.
Proof.
  induction s as [|c s IH]; [reflexivity|].
  cbn [text_after_final_dot].
  destruct (JsString.has_char "." s) eqn:Hs; [exact IH|].
  destruct (Ascii.eqb c ".") eqn:Hc; [exact Hs|].
  cbn [JsString.has_char]. rewrite Hc, Hs. reflexivity.
Qed.

Lemma eqb_dot_cons (a x : string) :
  String.eqb (String "." a) (String "." x) = String.eqb a x.
Proof. reflexivity. Qed.

(** Membership of the derived extension in [supportedExtensions], for a
    segment without dots: the entry [.tar.gz] never matches. *)
Lemma includes_supported (x : string) :
  JsString.has_char "." x = false ->
  JsString.includes supportedExtensions ("." ++ x) = true <->
  In x accepted_suffixes.
Proof.
  intros Hdot. unfold supportedExtensions, accepted_suffixes.
  cbn [JsString.includes In].
  change ("." ++ x) with (String "." x).
  rewrite !eqb_dot_cons, !orb_true_iff, !String.eqb_eq.
  split.
  - intros [H|[H|[H|[H|[H|[H|[H|[H|[H|H]]]]]]]]]; try tauto.
    + subst x. discriminate Hdot.
    + discriminate H.
  - intros [H|[H|[H|[H|[H|[H|[H|[H|[]]]]]]]]]; tauto.
Qed.

(** X1: [beforeUpload] lets a file through exactly when the lower-cased
    text after the last dot of its name (the whole name when it has no
    dot) is one of cpp, hpp, h, c, cc, cxx, zip, tgz and its size is at
    most [maxFileSize].  So a file named just [zip] passes, and no name
    matches the list entry [.tar.gz]. *)
Theorem beforeUpload_accepts_iff (file : File.t) (s : State) :
  result_of (beforeUpload file s) = Normal true <->
  In (JsString.toLowerCase (text_after_final_dot (File.name file)))
     accepted_suffixes /\
  File.size file <= maxFileSize.
Proof.
  rewrite beforeUpload_cases. cbv zeta. rewrite fileExtension_spec.
  pose proof (includes_supported
                (JsString.toLowerCase (text_after_final_dot (File.name file)))) as Hinc.
  rewrite <- text_after_final_dot_toLowerCase in Hinc |- *.
  specialize (Hinc (has_char_text_after_final_dot _)).
  destruct (JsString.includes supportedExtensions _).
  - rewrite Z.gtb_ltb.
    destruct (Z.ltb_spec maxFileSize (File.size file)); cbn.
    + split; [discriminate|lia].
    + split; [intros _; split; [apply Hinc; reflexivity|lia] | reflexivity].
  - cbn. split; [discriminate|].
    intros [Hin _]. apply Hinc in Hin. discriminate Hin.
Qed.

(** X2: the verdict and the message of [beforeUpload] do not depend on
    the case of the ASCII letters of the name: two files of the same size
    whose names agree once lower-cased are treated alike. *)
Theorem beforeUpload_ignores_case (f1 f2 : File.t) (s : State) :
  JsString.toLowerCase (File.name f1) = JsString.toLowerCase (File.name f2) ->
  File.size f1 = File.size f2 ->
  beforeUpload f1 s = beforeUpload f2 s.
Proof.
  intros Hname Hsize. rewrite !beforeUpload_cases. cbv zeta.
  rewrite !fileExtension_spec, <- !text_after_final_dot_toLowerCase.
  rewrite Hname, Hsize. reflexivity.
Qed.

Lemma beforeUpload_ignores_case_witness :
  beforeUpload (File.mk "Main.CPP" 10) initialState =
  beforeUpload (File.mk "main.cpp" 10) initialState.
Proof.
  exact (beforeUpload_ignores_case (File.mk "Main.CPP" 10)
           (File.mk "main.cpp" 10) initialState eq_refl eq_refl).
Defined.

(** ** The transfer engine on arbitrary event sequences *)

Lemma successes_app (l1 l2 : list Effect) :
  successes (l1 ++ l2) = (successes l1 ++ successes l2)%list.
Proof.
  induction l1 as [|e l1 IH]; [reflexivity|].
  destruct e; cbn [app successes]; rewrite IH; reflexivity.
Qed.

Lemma successes_progress (ps : list JsNumber) :
  successes (List.map onProgress ps) = [].
Proof. induction ps as [|p ps IH]; [reflexivity|exact IH]. Qed.

Section AnyEvents.

Variable JSON_parse : string -> JsError.t + UploadResponse.t.

(** One listener call: the list grows by the acknowledgments handed to
    [onSuccess], and no request is sent. *)
Lemma dispatch_effect (ev : XhrEvent) (s : State) :
  let run := dispatch JSON_parse ev s in
  uploadedFiles (state_of run) =
    (uploadedFiles s ++ List.map UploadedFile.of_response (successes (log_of run)))%list /\
  List.filter is_xhr_send (log_of run) = [].
Proof.
  cbv zeta. destruct ev as [event|status text|]; cbn [dispatch].
  - rewrite progress_listener_run.
    destruct (ProgressEvent.lengthComputable event); cbn;
      rewrite app_nil_r; split; reflexivity.
  - rewrite load_listener_cases.
    destruct (status =? 200); [|cbn; rewrite app_nil_r; split; reflexivity].
    destruct (JSON_parse text) as [e|r];
      [cbn; rewrite app_nil_r; split; reflexivity|].
    destruct (UploadResponse.success r); cbn; rewrite ?app_nil_r;
      split; reflexivity.
  - cbn. rewrite app_nil_r. split; reflexivity.
Qed.

Lemma deliver_effect (events : list XhrEvent) (s : State) :
  let run := deliver JSON_parse events s in
  result_of run = Normal tt /\
  uploadedFiles (state_of run) =
    (uploadedFiles s ++ List.map UploadedFile.of_response (successes (log_of run)))%list /\
  List.filter is_xhr_send (log_of run) = [].
Proof.
  cbv zeta. revert s. induction events as [|ev rest IH]; intros s.
  - cbn. rewrite app_nil_r. repeat split.
  - rewrite deliver_cons.
    pose proof (dispatch_effect ev s) as Hd. cbv zeta in Hd.
    destruct (dispatch JSON_parse ev s) as [[r0 s0] l0].
    specialize (IH s0).
    destruct (deliver JSON_parse rest s0) as [[r1 s1] l1].
    unfold result_of, state_of, log_of in *. cbn [fst snd] in *.
    destruct Hd as (Hd1 & Hd2). destruct IH as (IH0 & IH1 & IH2).
    split; [exact IH0|]. split.
    + rewrite IH1, Hd1, successes_app, List.map_app, app_assoc. reflexivity.
    + rewrite List.filter_app, Hd2, IH2. reflexivity.
Qed.

(** X3: whatever events arrive, in whatever number and order, a
    submission never throws and [uploadedFiles] ends as the list from
    before followed by one record for each acknowledgment handed to
    [onSuccess], in the order of the calls; entries already in the list
    are never changed or dropped. *)
Theorem upload_appends_one_record_per_success (file : File.t) (now : Z)
    (send_exn : option JsError.t) (events : list XhrEvent) (s : State) :
  let run := upload JSON_parse file now send_exn events s in
  result_of run = Normal tt /\
  uploadedFiles (state_of run) =
    (uploadedFiles s ++
     List.map UploadedFile.of_response (successes (log_of run)))%list.
Proof.
  cbv zeta. unfold upload. rewrite bind_run.
  destruct (beforeUpload_run file) as (ok & l & Hl & Hrun). rewrite Hrun.
  assert (Hsucc : successes l = []).
  { specialize (Hrun s). rewrite beforeUpload_cases in Hrun. cbv zeta in Hrun.
    destruct (JsString.includes _ _); [destruct (_ >? _)|];
      injection Hrun as _ <-; reflexivity. }
  destruct ok.
  - unfold transfer. rewrite bind_run.
    destruct send_exn as [e|].
    + rewrite customUpload_exception. cbn. rewrite successes_app, Hsucc.
      cbn. rewrite app_nil_r. split; reflexivity.
    + rewrite customUpload_run.
      pose proof (deliver_effect events
                    (in_flight (JsNumber.of_Z 0) (uploadedFiles s))) as Hd.
      cbv zeta in Hd.
      destruct (deliver JSON_parse events _) as [[r1 s1] l1].
      unfold result_of, state_of, log_of in *. cbn [fst snd in_flight uploadedFiles] in *.
      destruct Hd as (Hd0 & Hd1 & _).
      split; [exact Hd0|].
      rewrite !successes_app, Hsucc. cbn [request_log successes app]. exact Hd1.
  - cbn. rewrite app_nil_r, Hsucc. cbn. rewrite app_nil_r. split; reflexivity.
Qed.

(** X4: a submission sends at most one request: exactly one when
    [beforeUpload] lets the file through and sending does not throw, none
    otherwise; in particular none for a file that is turned away. *)
Theorem upload_sends_at_most_once (file : File.t) (now : Z)
    (send_exn : option JsError.t) (events : list XhrEvent) (s : State) :
  List.filter is_xhr_send
    (log_of (upload JSON_parse file now send_exn events s)) =
  match accepts file, send_exn with
  | true, None =>
      [xhr_send [("file", FormFile file);
                 ("project_name", FormString ("Project_" ++ JsString.of_Z now));
                 ("description", FormString "C++项目代码分析")]]
  | _, _ => []
  end.
Proof.
  unfold upload, accepts. rewrite bind_run.
  destruct (beforeUpload_run file) as (ok & l & Hl & Hrun). rewrite !Hrun.
  assert (Hsend : List.filter is_xhr_send l = []).
  { specialize (Hrun s). rewrite beforeUpload_cases in Hrun. cbv zeta in Hrun.
    destruct (JsString.includes _ _); [destruct (_ >? _)|];
      injection Hrun as _ <-; reflexivity. }
  cbn [result_of fst].
  destruct ok.
  - unfold transfer. rewrite bind_run.
    destruct send_exn as [e|].
    + rewrite customUpload_exception. unfold ret, log_of. cbn [snd app].
      rewrite !List.filter_app, Hsend. reflexivity.
    + rewrite customUpload_run.
      pose proof (deliver_effect events
                    (in_flight (JsNumber.of_Z 0) (uploadedFiles s))) as Hd.
      cbv zeta in Hd.
      destruct (deliver JSON_parse events _) as [[r1 s1] l1].
      unfold log_of in *. cbn [fst snd] in *.
      destruct Hd as (_ & _ & Hd2).
      rewrite !List.filter_app, Hsend, Hd2. reflexivity.
  - unfold ret, log_of. cbn [snd]. rewrite app_nil_r. exact Hsend.
Qed.

(** X5: a transfer on the events of one request ends in exactly one of
    two ways: [onSuccess] with the acknowledgment and its record appended
    to the list, or [onError] and the list as it was; never both. *)
Theorem transfer_succeeds_or_fails (file : File.t) (now : Z)
    (ticks : list ProgressEvent.t) (terminal : XhrEvent) (s : State) :
  is_terminal terminal = true ->
  let run := transfer JSON_parse file now None (request_events ticks terminal) s in
  (exists response : UploadResponse.t,
     List.filter is_terminal_callback (log_of run) = [onSuccess response] /\
     uploadedFiles (state_of run) =
       (uploadedFiles s ++ [UploadedFile.of_response response])%list) \/
  (exists e : JsError.t,
     List.filter is_terminal_callback (log_of run) = [onError e] /\
     uploadedFiles (state_of run) = uploadedFiles s).
Proof.
  intros Hterm. cbv zeta. rewrite transfer_run. cbv zeta.
  unfold state_of, log_of. cbn [fst snd]. rewrite filter_terminal_prefix.
  destruct terminal as [ev|status text|]; [discriminate| |]; cbn [dispatch].
  - rewrite load_listener_cases.
    destruct (status =? 200); [|right; eexists; split; reflexivity].
    destruct (JSON_parse text) as [e|r]; [right; eexists; split; reflexivity|].
    destruct (UploadResponse.success r);
      [left|right]; eexists; split; reflexivity.
  - right. eexists; split; reflexivity.
Qed.

(** X6: the list is not deduplicated: two transfers in a row that both
    receive the same acknowledgment append two equal records. *)
Theorem repeated_upload_appends_twice (file1 file2 : File.t) (now1 now2 : Z)
    (ticks1 ticks2 : list ProgressEvent.t) (text : string)
    (response : UploadResponse.t) (s : State) :
  JSON_parse text = inr response ->
  UploadResponse.success response = true ->
  uploadedFiles
    (state_of
       (bind (transfer JSON_parse file1 now1 None
                (request_events ticks1 (load 200 text)))
             (fun _ => transfer JSON_parse file2 now2 None
                         (request_events ticks2 (load 200 text))) s)) =
  (uploadedFiles s ++
   [UploadedFile.of_response response; UploadedFile.of_response response])%list.
Proof.
  intros Hparse Hok. rewrite bind_run, !transfer_run. cbv zeta. cbn [dispatch].
  rewrite !load_listener_cases. cbn [Z.eqb Pos.eqb]. rewrite Hparse, Hok.
  cbn [state_of log_of fst snd uploadedFiles idle in_flight].
  rewrite <- app_assoc. reflexivity.
Qed.

(** X7: a successful transfer followed by [removeFile] on the position
    of the new record gives back the list from before the transfer. *)
Theorem upload_then_remove_restores (file : File.t) (now : Z)
    (ticks : list ProgressEvent.t) (text : string)
    (response : UploadResponse.t) (s : State) :
  JSON_parse text = inr response ->
  UploadResponse.success response = true ->
  uploadedFiles
    (state_of
       (bind (transfer JSON_parse file now None
                (request_events ticks (load 200 text)))
             (fun _ => removeFile (Z.of_nat (length (uploadedFiles s)))) s)) =
  uploadedFiles s.
Proof.
  intros Hparse Hok. rewrite bind_run, transfer_run. cbv zeta. cbn [dispatch].
  rewrite load_listener_cases. cbn [Z.eqb Pos.eqb]. rewrite Hparse, Hok.
  cbn [state_of log_of fst snd uploadedFiles idle in_flight].
  unfold removeFile, bind, setUploadedFiles, emit.
  cbn [fst snd uploadedFiles idle]. rewrite filter_from_delete.
  destruct (Z.ltb_spec (Z.of_nat (length (uploadedFiles s))) 0); [lia|].
  rewrite Z.sub_0_r, Nat2Z.id.
  unfold state_of. cbn [fst snd uploadedFiles].
  rewrite (delete_middle (uploadedFiles s) []). apply app_nil_r.
Qed.

End AnyEvents.

Lemma transfer_succeeds_or_fails_witness :
  (exists response : UploadResponse.t,
     List.filter is_terminal_callback
       (log_of (transfer Sample.JSON_parse Sample.main_cpp 17 None
                  (request_events [] (load 200 "nack")) initialState)) =
       [onSuccess response] /\
     uploadedFiles
       (state_of (transfer Sample.JSON_parse Sample.main_cpp 17 None
                    (request_events [] (load 200 "nack")) initialState)) =
       ([] ++ [UploadedFile.of_response response])%list) \/
  (exists e : JsError.t,
     List.filter is_terminal_callback
       (log_of (transfer Sample.JSON_parse Sample.main_cpp 17 None
                  (request_events [] (load 200 "nack")) initialState)) =
       [onError e] /\
     uploadedFiles
       (state_of (transfer Sample.JSON_parse Sample.main_cpp 17 None
                    (request_events [] (load 200 "nack")) initialState)) = []).
Proof.
  exact (transfer_succeeds_or_fails Sample.JSON_parse Sample.main_cpp 17 []
           (load 200 "nack") initialState eq_refl).
Defined.

Lemma repeated_upload_appends_twice_witness :
  uploadedFiles
    (state_of
       (bind (transfer Sample.JSON_parse Sample.main_cpp 17 None
                (request_events [] (load 200 "ack")))
             (fun _ => transfer Sample.JSON_parse Sample.main_cpp 18 None
                         (request_events [] (load 200 "ack"))) initialState)) =
  [UploadedFile.of_response Sample.ack; UploadedFile.of_response Sample.ack].
Proof.
  exact (repeated_upload_appends_twice Sample.JSON_parse Sample.main_cpp
           Sample.main_cpp 17 18 [] [] "ack" Sample.ack initialState
           eq_refl eq_refl).
Defined.

Lemma upload_then_remove_restores_witness :
  uploadedFiles
    (state_of
       (bind (transfer Sample.JSON_parse Sample.main_cpp 17 None
                (request_events [] (load 200 "ack")))
             (fun _ => removeFile 1)
             (idle [UploadedFile.of_response Sample.nack]))) =
  [UploadedFile.of_response Sample.nack].
Proof.
  exact (upload_then_remove_restores Sample.JSON_parse Sample.main_cpp 17 []
           "ack" Sample.ack (idle [UploadedFile.of_response Sample.nack])
           eq_refl eq_refl).
Defined.

(** ** The result list, continued *)

Lemma delete_twice {A} (i : nat) (l : list A) :
  delete i (delete i l) = (take i l ++ drop (S (S i)) l)%list.
Proof.
  revert i. induction l as [|x l IH]; intros i.
  - destruct i; reflexivity.
  - destruct i as [|i].
    + destruct l; reflexivity.
    + cbn. f_equal. apply IH.
Qed.

(** X8: indices are positions, not identities: calling [removeFile] twice
    with the same index (a double click on one remove button) removes the
    record at that position and the one that followed it. *)
Theorem removeFile_twice_removes_two (index : Z) (s : State) :
  0 <= index ->
  uploadedFiles
    (state_of (bind (removeFile index) (fun _ => removeFile index) s)) =
  (take (Z.to_nat index) (uploadedFiles s)
   ++ drop (S (S (Z.to_nat index))) (uploadedFiles s))%list.
Proof.
  intros Hpos.
  unfold removeFile, state_of, bind, setUploadedFiles, emit.
  cbn [fst snd uploadedFiles]. rewrite !filter_from_delete.
  destruct (Z.ltb_spec index 0); [lia|].
  rewrite Z.sub_0_r. apply delete_twice.
Qed.

Lemma removeFile_twice_removes_two_witness :
  uploadedFiles
    (state_of (bind (removeFile 0) (fun _ => removeFile 0)
                 (idle [UploadedFile.of_response Sample.ack;
                        UploadedFile.of_response Sample.nack;
                        UploadedFile.of_response Sample.ack]))) =
  [UploadedFile.of_response Sample.ack].
Proof.
  refine (removeFile_twice_removes_two 0
            (idle [UploadedFile.of_response Sample.ack;
                   UploadedFile.of_response Sample.nack;
                   UploadedFile.of_response Sample.ack]) _).
  lia.
Defined.

(** ** What is rendered *)

Lemma render_items_lookup (l : list UploadedFile.t) (i : Z) (k : nat) :
  render_items i l !! k =
    (fun item => renderItem item (i + Z.of_nat k)) <$> (l !! k).
Proof.
  revert i k. induction l as [|x l IH]; intros i k; [reflexivity|].
  destruct k as [|k]; cbn [render_items].
  - cbn. rewrite Z.add_0_r. reflexivity.
  - cbn [lookup list_lookup]. rewrite IH. cbn.
    replace (i + 1 + Z.of_nat k) with (i + Z.pos (Pos.of_succ_nat k)) by lia.
    reflexivity.
Qed.

(** X9: the card of uploaded files is shown exactly when the list is not
    empty, with the number of records in its title and one item per
    record in list order; the remove button of the item at position [k]
    passes [k] to [removeFile], which is always in range, so pressing it
    deletes exactly the record that the item shows. *)
Theorem uploaded_card_remove_buttons (s : State) :
  (uploaded_card s = None <-> uploadedFiles s = []) /\
  forall (title : string) (items : list ItemView.t),
    uploaded_card s = Some (title, items) ->
    title = "已上传文件 (" ++ JsString.of_Z (Z.of_nat (length (uploadedFiles s))) ++ ")" /\
    length items = length (uploadedFiles s) /\
    forall (k : nat) (v : ItemView.t),
      items !! k = Some v ->
      exists item : UploadedFile.t,
        uploadedFiles s !! k = Some item /\
        ItemView.title v = UploadedFile.original_name item /\
        ItemView.remove_index v = Z.of_nat k /\
        uploadedFiles (state_of (removeFile (ItemView.remove_index v) s)) =
          delete k (uploadedFiles s) /\
        S (length (delete k (uploadedFiles s))) = length (uploadedFiles s).
Proof.
  unfold uploaded_card. cbv zeta. split.
  - destruct (uploadedFiles s) as [|x l]; cbn [length].
    + split; reflexivity.
    + destruct (Z.gtb_spec (Z.of_nat (S (length l))) 0); [|lia].
      split; discriminate.
  - intros title items.
    destruct (Z.gtb_spec (Z.of_nat (length (uploadedFiles s))) 0); [|discriminate].
    intros E. injection E as <- <-. split; [reflexivity|]. split.
    { clear. generalize 0. generalize (uploadedFiles s) as l.
      induction l as [|x l IH]; intros i; [reflexivity|].
      cbn [render_items length]. f_equal. apply IH. }
    intros k v Hk. rewrite render_items_lookup in Hk.
    destruct (uploadedFiles s !! k) as [item|] eqn:Hitem; [|discriminate Hk].
    cbn in Hk. injection Hk as <-. exists item.
    split; [reflexivity|]. split; [reflexivity|]. split; [reflexivity|].
    cbn [ItemView.remove_index renderItem].
    unfold removeFile, state_of, bind, setUploadedFiles, emit.
    cbn [fst snd uploadedFiles]. rewrite filter_from_delete.
    destruct (Z.ltb_spec (0 + Z.of_nat k) 0); [lia|].
    replace (Z.to_nat (0 + Z.of_nat k - 0)) with k by lia.
    split; [reflexivity|].
    rewrite length_delete by (rewrite Hitem; eauto).
    apply lookup_lt_Some in Hitem. lia.
Qed.

Lemma of_Z_eqb_100 (z : Z) :
  0 <= z <= 100 ->
  SFeqb (JsNumber.of_Z z) (JsNumber.of_Z 100) = (z =? 100).
Proof.
  intros Hz.
  assert (Hall : forallb
            (fun n => Bool.eqb (SFeqb (JsNumber.of_Z (Z.of_nat n)) (JsNumber.of_Z 100))
                               (Z.of_nat n =? 100))
            (List.seq 0 101) = true) by (vm_compute; reflexivity).
  rewrite forallb_forall in Hall.
  specialize (Hall (Z.to_nat z)). rewrite Z2Nat.id in Hall by lia.
  apply Bool.eqb_prop. apply Hall. apply in_seq. lia.
Qed.

Lemma latest_map_of_Z (z0 : Z) (zs : list Z) :
  latest (JsNumber.of_Z z0) (List.map JsNumber.of_Z zs) =
  JsNumber.of_Z (List.last zs z0).
Proof.
  unfold latest. induction zs as [|z zs IH]; [reflexivity|].
  destruct zs as [|z' zs]; [reflexivity|]. exact IH.
Qed.

Lemma last_in_range (zs : list Z) :
  Forall (fun z => 0 <= z <= 100) zs -> 0 <= List.last zs 0 <= 100.
Proof.
  induction 1 as [|z zs Hz Hall IH]; [cbn; lia|].
  destruct zs as [|z' zs]; [exact Hz|exact IH].
Qed.

(** X10: while a transfer is in flight the progress bar is shown, and
    the percentage it shows is the one reported last to [onProgress] (0
    before the first report); under the tick discipline of XMLHttpRequest
    that is an integer between 0 and 100, and the status of the bar is
    'success' exactly when it is 100; once the terminal event has been
    handled the bar is hidden. *)
Theorem progress_bar_during_transfer
    (JSON_parse : string -> JsError.t + UploadResponse.t)
    (file : File.t) (now total : Z) (ticks : list ProgressEvent.t)
    (terminal : XhrEvent) (s : State) :
  is_terminal terminal = true ->
  upload_ticks total ticks ->
  let busy :=
    bind (customUpload file now None)
         (fun _ => deliver JSON_parse (List.map upload_progress ticks)) s in
  let reports :=
    List.map (fun ev =>
                JsNumber.round
                  (JsNumber.mul
                     (JsNumber.div (JsNumber.of_Z (ProgressEvent.loaded ev))
                                   (JsNumber.of_Z (ProgressEvent.total ev)))
                     (JsNumber.of_Z 100)))
             (List.filter ProgressEvent.lengthComputable ticks) in
  let shown := List.last reports (JsNumber.of_Z 0) in
  List.filter is_callback (log_of busy) = List.map onProgress reports /\
  uploadProgress (state_of busy) = shown /\
  (exists z : Z,
     0 <= z <= 100 /\
     shown = JsNumber.of_Z z /\
     progress_panel (state_of busy) =
       Some (shown, if z =? 100 then "success" else "active")) /\
  progress_panel
    (state_of (transfer JSON_parse file now None
                 (request_events ticks terminal) s)) = None.
Proof.
  intros Hterm Hticks. cbv zeta.
  change (List.map _ (List.filter ProgressEvent.lengthComputable ticks))
    with (percents ticks).
  rewrite bind_run, customUpload_run, deliver_ticks.
  unfold state_of, log_of.
  cbn [fst snd uploading uploadProgress uploadedFiles in_flight].
  fold (latest (JsNumber.of_Z 0) (percents ticks)).
  split; [|split; [reflexivity|split]].
  - rewrite <- (app_nil_r (List.map onProgress (percents ticks))).
    rewrite filter_callback_prefix. reflexivity.
  - destruct (percents_integers total ticks Hticks) as (zs & Hzs & _ & Hrange).
    exists (List.last zs 0). split; [apply last_in_range; exact Hrange|].
    unfold progress_panel, progress_status. cbn [uploading uploadProgress].
    rewrite Hzs, latest_map_of_Z.
    rewrite of_Z_eqb_100 by (apply last_in_range; exact Hrange).
    split; reflexivity.
  - pose proof (transfer_run JSON_parse file now ticks terminal s) as Hrun.
    cbv zeta in Hrun. rewrite Hrun.
    destruct (terminal_listener_idle JSON_parse terminal
                (in_flight (latest (JsNumber.of_Z 0) (percents ticks))
                   (uploadedFiles s)) Hterm) as (files & E).
    unfold state_of in *. cbn [fst snd]. rewrite E. reflexivity.
Qed.

Lemma progress_bar_during_transfer_witness :
  List.filter is_callback
    (log_of (bind (customUpload Sample.main_cpp 17 None)
               (fun _ => deliver Sample.JSON_parse
                           (List.map upload_progress
                              [Sample.tick 100 1024; Sample.tick 460 1024]))
               initialState)) =
    [onProgress (JsNumber.of_Z 10); onProgress (JsNumber.of_Z 45)] /\
  uploadProgress
    (state_of (bind (customUpload Sample.main_cpp 17 None)
                 (fun _ => deliver Sample.JSON_parse
                             (List.map upload_progress
                                [Sample.tick 100 1024; Sample.tick 460 1024]))
                 initialState)) = JsNumber.of_Z 45 /\
  progress_panel
    (state_of (transfer Sample.JSON_parse Sample.main_cpp 17 None
                 (request_events [Sample.tick 100 1024; Sample.tick 460 1024]
                    error) initialState)) = None.
Proof.
  assert (Hticks : upload_ticks 1024 [Sample.tick 100 1024; Sample.tick 460 1024]).
  { unfold upload_ticks, Sample.tick. cbn.
    split; [lia|]. split.
    - repeat (apply List.Forall_cons; [cbn; lia|]). apply List.Forall_nil.
    - repeat (apply Sorted_cons; [|try (apply HdRel_cons; lia)]);
        [apply Sorted_nil | apply HdRel_nil]. }
  destruct (progress_bar_during_transfer Sample.JSON_parse Sample.main_cpp 17 1024
              [Sample.tick 100 1024; Sample.tick 460 1024] error initialState
              eq_refl Hticks) as (Hlog & Hshown & _ & Hend).
  split; [exact Hlog|]. split; [exact Hshown|]. exact Hend.
Defined.

(** X11: a progress tick that reports all [total] bytes sent puts the
    bar at 100 with status 'success', one that reports none puts it at 0
    with status 'active', for every total a double holds exactly; a tick
    whose total is unknown leaves the state as it is and reports
    nothing. *)
Theorem progress_bar_endpoints (total loaded : Z) (p : JsNumber)
    (files : list UploadedFile.t) :
  0 < total < 2 ^ 53 ->
  progress_listener (ProgressEvent.mk true total total) (in_flight p files) =
    (Normal tt, in_flight (JsNumber.of_Z 100) files, [onProgress (JsNumber.of_Z 100)]) /\
  progress_panel (in_flight (JsNumber.of_Z 100) files) =
    Some (JsNumber.of_Z 100, "success") /\
  progress_listener (ProgressEvent.mk true 0 total) (in_flight p files) =
    (Normal tt, in_flight (JsNumber.of_Z 0) files, [onProgress (JsNumber.of_Z 0)]) /\
  progress_panel (in_flight (JsNumber.of_Z 0) files) =
    Some (JsNumber.of_Z 0, "active") /\
  progress_listener (ProgressEvent.mk false loaded total) (in_flight p files) =
    (Normal tt, in_flight p files, []).
Proof.
  intros Ht. rewrite !progress_listener_run.
  cbn [ProgressEvent.lengthComputable ProgressEvent.loaded ProgressEvent.total].
  cbv zeta.
  rewrite (percent_of_integer total total) by lia.
  rewrite (percent_of_integer 0 total) by lia.
  rewrite percent_Z_full, percent_Z_zero by exact Ht.
  repeat split; reflexivity.
Qed.

Lemma progress_bar_endpoints_witness :
  progress_listener (ProgressEvent.mk true 1024 1024)
    (in_flight (JsNumber.of_Z 45) []) =
  (Normal tt, in_flight (JsNumber.of_Z 100) [], [onProgress (JsNumber.of_Z 100)]).
Proof.
  refine (proj1 (progress_bar_endpoints 1024 0 (JsNumber.of_Z 45) [] _)). lia.
Defined.

(** ** [App] *)

(** X12: whatever the outcome of the fetch, and whatever the state before
    it, [fetchSystemInfo] ends with [loading] false, so the spinner gives
    way to the layout also when the back end cannot be reached; the
    system information is replaced on success and kept on failure;
    exactly one toast is shown; and the footer never shows an empty
    version: without information, or with an empty version string, it
    shows 1.0.0. *)
Theorem fetchSystemInfo_always_ends_loading
    (outcome : JsError.t + SystemInfo.t) (s : AppState) :
  let s' := fst (fetchSystemInfo outcome s) in
  let log := snd (fetchSystemInfo outcome s) in
  shows_spinner s' = false /\
  collapsed s' = collapsed s /\
  systemInfo s' =
    match outcome with
    | inr data => Some data
    | inl _ => systemInfo s
    end /\
  length (List.filter (fun e => match e with
                                | message_success _ | message_error _ => true
                                | _ => false
                                end) log) = 1%nat /\
  footer_version s' <> "" /\
  (systemInfo s' = None -> footer_version s' = "1.0.0" /\ footer_status s' = "异常").
Proof.
  cbv zeta. unfold fetchSystemInfo, shows_spinner, footer_version, footer_status.
  destruct outcome as [e|data]; cbn [fst snd loading collapsed systemInfo].
  - repeat split; try reflexivity.
    + destruct (systemInfo s) as [info|]; [|discriminate].
      destruct (String.eqb_spec (SystemInfo.version info) ""); [discriminate|assumption].
    + destruct (systemInfo s); [discriminate|reflexivity].
    + destruct (systemInfo s); [discriminate|reflexivity].
  - repeat split; try reflexivity; try discriminate.
    destruct (String.eqb_spec (SystemInfo.version data) ""); [discriminate|assumption].
Qed.

(** ** The API client *)

Lemma get_set_eq (key : string) (value : Api.ParamValue) (o : Api.Params) :
  Api.get key (Api.set key value o) = Some value.
Proof.
  induction o as [|[k v] o IH]; cbn [Api.set Api.get].
  - rewrite String.eqb_refl. reflexivity.
  - destruct (String.eqb k key) eqn:E; cbn [Api.get]; rewrite E; [reflexivity|exact IH].
Qed.

Lemma get_set_ne (key key' : string) (value : Api.ParamValue) (o : Api.Params) :
  key' <> key -> Api.get key' (Api.set key value o) = Api.get key' o.
Proof.
  intros Hne. induction o as [|[k v] o IH]; cbn [Api.set Api.get].
  - destruct (String.eqb_spec key key'); [congruence|reflexivity].
  - destruct (String.eqb_spec k key) as [->|Hk]; cbn [Api.get].
    + destruct (String.eqb_spec key key'); [congruence|reflexivity].
    + rewrite IH. reflexivity.
Qed.

Lemma set_keys (key : string) (value : Api.ParamValue) (o : Api.Params) :
  List.map fst (Api.set key value o) =
    match Api.get key o with
    | Some _ => List.map fst o
    | None => (List.map fst o ++ [key])%list
    end.
Proof.
  induction o as [|[k v] o IH]; cbn [Api.set Api.get]; [reflexivity|].
  destruct (String.eqb_spec k key) as [->|Hk]; [reflexivity|].
  cbn [List.map fst]. rewrite IH.
  destruct (Api.get key o); reflexivity.
Qed.

(** X13: the request interceptor leaves every request that is not a
    [get] as it is.  On a [get] it changes only the parameters: [_t] is
    the time stamp afterwards, every other parameter keeps its value, the
    parameters that were there keep their order, and [_t] is added at the
    end when it was absent and overwritten in place when it was present
    (so intercepting twice leaves one [_t]). *)
Theorem request_interceptor_adds_timestamp (now : Z) (config : Api.Config) :
  let config' := fst (Api.request_interceptor now config) in
  let old := match Api.params config with Some o => o | None => [] end in
  Api.method config' = Api.method config /\
  Api.url config' = Api.url config /\
  (Api.method config <> Some "get" -> config' = config) /\
  (Api.method config = Some "get" ->
   exists o : Api.Params,
     Api.params config' = Some o /\
     Api.get "_t" o = Some (Api.PNumber now) /\
     (forall key : string, key <> "_t" -> Api.get key o = Api.get key old) /\
     List.map fst o =
       match Api.get "_t" old with
       | Some _ => List.map fst old
       | None => (List.map fst old ++ ["_t"])%list
       end).
Proof.
  cbv zeta. unfold Api.request_interceptor. cbn [fst].
  destruct (Api.method config) as [m|] eqn:Hm.
  - destruct (String.eqb_spec m "get") as [->|Hne]; cbn [Api.method Api.url Api.params].
    + split; [reflexivity|]. split; [reflexivity|]. split; [congruence|].
      intros _. eexists. split; [reflexivity|].
      split; [apply get_set_eq|]. split; [|apply set_keys].
      intros key Hkey. apply get_set_ne. exact Hkey.
    + split; [exact Hm|]. split; [reflexivity|]. split; [reflexivity|].
      intros E. congruence.
  - split; [exact Hm|]. split; [reflexivity|]. split; [reflexivity|].
    discriminate.
Qed.

(** ** The progress percentage of [uploadFile] *)

Lemma rne_divisible (q b : Z) : 0 < b -> rne (q * b) b = q.
Proof.
  intros Hb. unfold rne. cbv zeta. rewrite Z.mod_mul, Z.div_mul by lia.
  destruct (Z.compare_spec (2 * 0) b); first [reflexivity | lia].
Qed.

(** The product [loaded * 100] is exact. *)
Lemma mul_100_exact (l : Z) :
  0 < l < 2 ^ 45 ->
  exists c : Z,
    45 <= c + Z.log2 l <= 46 /\ 0 <= c /\
    2 ^ 52 <= 100 * l * 2 ^ c < 2 ^ 53 /\
    JsNumber.mul (JsNumber.of_Z l) (JsNumber.of_Z 100) =
      S754_finite false (Z.to_pos (100 * l * 2 ^ c)) (- c).
Proof.
  intros Hl.
  destruct (of_Z_normal l ltac:(lia)) as (-> & Hm & He).
  pose proof (Z.log2_nonneg l) as HL0.
  assert (HL : Z.log2 l < 45) by (apply Z.log2_lt_pow2; lia).
  rewrite fmul_100_spec by (try exact Hm; lia).
  rewrite Z2Pos.id in * by lia.
  set (n := if mant l * hundred_m <? 2 ^ 105 then 52%nat else 53%nat).
  exists (98 - Z.log2 l - Z.of_nat n).
  assert (Hn : Z.of_nat n = 52 \/ Z.of_nat n = 53)
    by (unfold n; destruct (_ <? _); cbn; lia).
  assert (Hbin : 2 ^ 52 * (1 * 2 ^ Z.of_nat n) <= mant l * hundred_m
                 < 2 ^ 53 * (1 * 2 ^ Z.of_nat n)).
  { unfold n, hundred_m in *.
    destruct (Z.ltb_spec (mant l * 7036874417766400) (2 ^ 105)); cbn [Z.of_nat]; lia. }
  assert (HP : mant l * hundred_m =
               100 * l * 2 ^ (98 - Z.log2 l - Z.of_nat n) * (1 * 2 ^ Z.of_nat n)).
  { unfold mant, hundred_m. change 7036874417766400 with (100 * 2 ^ 46).
    rewrite Z.mul_1_l.
    replace (100 * l * 2 ^ (98 - Z.log2 l - Z.of_nat n) * 2 ^ Z.of_nat n)
      with (100 * l * (2 ^ (98 - Z.log2 l - Z.of_nat n) * 2 ^ Z.of_nat n)) by ring.
    rewrite <- Z.pow_add_r by lia.
    replace (l * 2 ^ (52 - Z.log2 l) * (100 * 2 ^ 46))
      with (100 * l * (2 ^ (52 - Z.log2 l) * 2 ^ 46)) by ring.
    rewrite <- Z.pow_add_r by lia. f_equal. f_equal. lia. }
  assert (Hp : 0 < 1 * 2 ^ Z.of_nat n) by (destruct Hn as [-> | ->]; lia).
  pose proof (rne_bounds _ _ (2 ^ 52) (2 ^ 53) Hp Hbin) as Hr.
  unfold rounded. cbv zeta. rewrite HP in Hr |- *.
  rewrite rne_divisible in Hr |- * by exact Hp.
  assert (Hlt : 100 * l * 2 ^ (98 - Z.log2 l - Z.of_nat n) < 2 ^ 53).
  { rewrite HP in Hbin. nia. }
  split; [lia|]. split; [lia|]. split; [lia|].
  destruct (Z.ltb_spec (100 * l * 2 ^ (98 - Z.log2 l - Z.of_nat n)) (2 ^ 53)); [|lia].
  f_equal. unfold expo. lia.
Qed.

Lemma rne_below (a B c : Z) :
  0 < B -> 2 * a < (2 * c - 1) * B -> rne a B <= c - 1.
Proof.
  intros HB Ha. unfold rne. cbv zeta.
  pose proof (Z.mod_pos_bound a B HB) as Hr.
  pose proof (Z.div_mod a B ltac:(lia)) as Hdm.
  assert (Hq : a / B <= c - 1) by nia.
  destruct (Z.compare_spec (2 * (a mod B)) B);
    [destruct (Z.even (a / B))| |]; nia.
Qed.

Lemma rne_above (a B c : Z) :
  0 < B -> c * B <= a -> c <= rne a B.
Proof.
  intros HB Ha. unfold rne. cbv zeta.
  pose proof (Z.mod_pos_bound a B HB) as Hr.
  pose proof (Z.div_mod a B ltac:(lia)) as Hdm.
  assert (Hq : c <= a / B) by (apply Z.div_le_lower_bound; lia).
  destruct (Z.compare_spec (2 * (a mod B)) B);
    [destruct (Z.even (a / B))| |]; lia.
Qed.

(** Rounding the quotient to a multiple of [1 / (2 * H)] first does not
    change its rounding to an integer, when [2 * H] exceeds the
    denominator. *)
Lemma half_up_exact (l t a B H : Z) :
  0 < t -> 0 <= l -> 0 < B -> 0 < H -> t < 2 * H ->
  a * t = 100 * l * (B * (2 * H)) ->
  (2 * rne a B + 2 * H) / (2 * (2 * H)) = (200 * l + t) / (2 * t).
Proof.
  intros Ht Hl HB HH HK Hat.
  set (k := (200 * l + t) / (2 * t)).
  pose proof (Z.div_mod (200 * l + t) (2 * t) ltac:(lia)) as Hdm.
  pose proof (Z.mod_pos_bound (200 * l + t) (2 * t) ltac:(lia)) as Hr.
  fold k in Hdm.
  assert (Hlo : (2 * k - 1) * t <= 200 * l) by lia.
  assert (Hhi : 200 * l + 1 <= (2 * k + 1) * t) by lia.
  assert (Hlow : (2 * k - 1) * H <= rne a B).
  { apply rne_above; [exact HB|].
    assert (E : t * ((2 * k - 1) * H * B) <= t * a) by nia.
    apply Z.mul_le_mono_pos_l in E; lia. }
  assert (Hupp : rne a B <= (2 * k + 1) * H - 1).
  { apply rne_below; [exact HB|].
    assert (E : t * (2 * a) + t * B < t * ((2 * ((2 * k + 1) * H)) * B)).
    { assert (E1 : (200 * l + 1) * (B * (2 * H)) <= (2 * k + 1) * t * (B * (2 * H)))
        by (apply Z.mul_le_mono_nonneg_r; nia).
      assert (E2 : t * B < B * (2 * H)) by nia.
      nia. }
    assert (E' : t * (2 * a + B) < t * ((2 * ((2 * k + 1) * H)) * B)) by lia.
    apply Z.mul_lt_mono_pos_l in E'; lia. }
  symmetry. apply (Z.div_unique_pos _ _ _ (2 * (rne a B - (2 * k - 1) * H))); lia.
Qed.

Lemma progress_of_exact (loaded total : Z) :
  0 < total < 2 ^ 45 -> 0 <= loaded <= total ->
  Api.progress_of loaded total =
    JsNumber.of_Z ((200 * loaded + total) / (2 * total)).
Proof.
  intros Ht Hl. unfold Api.progress_of.
  destruct (Z.eq_dec loaded 0) as [->|Hne].
  { destruct (of_Z_normal total ltac:(lia)) as (-> & _).
    rewrite Z.mul_0_r, Z.add_0_l, Z.div_small by lia. reflexivity. }
  destruct (mul_100_exact loaded ltac:(lia)) as (c & Hc & Hc0 & Hm & ->).
  destruct (of_Z_normal total ltac:(lia)) as (-> & Hmt & Het).
  assert (HLt : Z.log2 total < 45) by (apply Z.log2_lt_pow2; lia).
  assert (HLl : Z.log2 loaded <= Z.log2 total) by (apply Z.log2_le_mono; lia).
  pose proof (Z.log2_nonneg loaded) as HL0.
  rewrite Z2Pos.id in Hmt by lia.
  rewrite fdiv_spec by (rewrite ?Z2Pos.id by lia; unfold expo; lia).
  rewrite !Z2Pos.id by lia.
  set (a := 100 * loaded * 2 ^ c * 2 ^ 53).
  set (n := if 100 * loaded * 2 ^ c <? mant total then 0%nat else 1%nat).
  assert (Hn : Z.of_nat n = 0 \/ Z.of_nat n = 1)
    by (unfold n; destruct (_ <? _); cbn; lia).
  set (B := mant total * 2 ^ Z.of_nat n).
  assert (HB : 0 < B) by (unfold B; destruct Hn as [-> | ->]; lia).
  (* the exponent of the quotient and the weight K = 2 * H of one unit *)
  set (E := - c - expo total - 53).
  set (h := c + expo total + 53 - Z.of_nat n - 1).
  assert (Hh : 44 <= h) by (unfold h, expo; lia).
  assert (HH : 2 ^ 45 <= 2 * 2 ^ h).
  { change (2 ^ 45) with (2 * 2 ^ 44). apply Z.mul_le_mono_nonneg_l; [lia|].
    apply Z.pow_le_mono_r; lia. }
  assert (Hp : 0 < 2 ^ h) by (apply Z.pow_pos_nonneg; lia).
  assert (Hat : a * total = 100 * loaded * (B * (2 * 2 ^ h))).
  { unfold a, B, mant, h, expo.
    replace (2 * 2 ^ (c + (Z.log2 total - 52) + 53 - Z.of_nat n - 1))
      with (2 ^ (c + Z.log2 total + 1 - Z.of_nat n))
      by (rewrite <- Z.pow_succ_r by lia; f_equal; lia).
    replace (total * 2 ^ (52 - Z.log2 total) * 2 ^ Z.of_nat n
             * 2 ^ (c + Z.log2 total + 1 - Z.of_nat n))
      with (total * (2 ^ (52 - Z.log2 total) * 2 ^ Z.of_nat n
             * 2 ^ (c + Z.log2 total + 1 - Z.of_nat n))) by ring.
    rewrite <- !Z.pow_add_r by lia.
    replace (52 - Z.log2 total + Z.of_nat n + (c + Z.log2 total + 1 - Z.of_nat n))
      with (c + 53) by lia.
    rewrite Z.pow_add_r by lia. ring. }
  pose proof (half_up_exact loaded total a B (2 ^ h) ltac:(lia) ltac:(lia)
                HB Hp ltac:(lia) Hat) as Hexact.
  assert (Hbin : 2 ^ 52 * B <= a < 2 ^ 53 * B).
  { unfold a, B, n.
    destruct (Z.ltb_spec (100 * loaded * 2 ^ c) (mant total)); cbn [Z.of_nat];
      [change (2 ^ 0) with 1 | change (2 ^ Z.pos 1) with 2]; lia. }
  pose proof (rne_bounds a B (2 ^ 52) (2 ^ 53) HB Hbin) as HM.
  unfold rounded. cbv zeta. fold a. fold B.
  set (M := rne a B) in *.
  assert (HE : - (E + Z.of_nat n) = h + 1) by (unfold E, h; lia).
  destruct (Z.ltb_spec M (2 ^ 53)) as [Hlt|Hge]; cbn [JsNumber.round].
  - rewrite Z2Pos.id by lia.
    destruct (Z.leb_spec 0 (E + Z.of_nat n)) as [Hbad|_]; [lia|].
    replace (- (E + Z.of_nat n) + 1) with (Z.succ (Z.succ h)) by lia.
    replace (- (E + Z.of_nat n)) with (Z.succ h) by lia.
    rewrite !Z.pow_succ_r by lia.
    rewrite Hexact.
    destruct (Z.eqb_spec ((200 * loaded + total) / (2 * total)) 0) as [->|_];
      reflexivity.
  - assert (EM : M = 2 ^ 53) by lia.
    rewrite Z2Pos.id by lia.
    destruct (Z.leb_spec 0 (E + Z.of_nat n + 1)) as [Hbad|_]; [lia|].
    replace (- (E + Z.of_nat n + 1) + 1) with (Z.succ h) by lia.
    replace (- (E + Z.of_nat n + 1)) with h by lia.
    rewrite Z.pow_succ_r by lia.
    rewrite <- Hexact, EM.
    assert (Hh1 : h = Z.succ (h - 1)) by lia.
    set (g := 2 ^ (h - 1)).
    assert (Hg : 2 ^ h = 2 * g)
      by (unfold g; rewrite Hh1 at 1; apply Z.pow_succ_r; lia).
    rewrite Hg.
    assert (Hg0 : 0 < g) by (unfold g; apply Z.pow_pos_nonneg; lia).
    replace (2 * 2 ^ 53 + 2 * (2 * g)) with ((2 * 2 ^ 52 + 2 * g) * 2) by ring.
    replace (2 * (2 * (2 * g))) with ((2 * (2 * g)) * 2) by ring.
    rewrite Z.div_mul_cancel_r by lia.
    destruct (Z.eqb_spec ((2 * 2 ^ 52 + 2 * g) / (2 * (2 * g))) 0) as [->|_];
      reflexivity.
Qed.

(** X14: [uploadFile] reports progress only when the event carries a
    non-zero total and a callback was given; the value it reports is then
    exactly 100 * loaded / total rounded to the nearest integer, halves
    up, for every total below 2^45 bytes: the double arithmetic of
    [Math.round((loaded * 100) / total)] loses nothing.  It lies between
    0 and 100. *)
Theorem api_upload_progress_exact (loaded total : Z) :
  0 < total < 2 ^ 45 -> 0 <= loaded <= total ->
  let k := (200 * loaded + total) / (2 * total) in
  Api.onUploadProgress true loaded (Some total) = [JsNumber.of_Z k] /\
  0 <= k <= 100 /\
  Api.onUploadProgress false loaded (Some total) = [] /\
  Api.onUploadProgress true loaded (Some 0) = [] /\
  Api.onUploadProgress true loaded None = [].
Proof.
  intros Ht Hl. cbv zeta. unfold Api.onUploadProgress.
  destruct (Z.eqb_spec total 0) as [E|_]; [lia|]. cbn [negb andb].
  rewrite progress_of_exact by assumption.
  split; [reflexivity|]. split; [|repeat split; reflexivity].
  split.
  - apply Z.div_pos; lia.
  - assert ((200 * loaded + total) / (2 * total) < 101)
      by (apply Z.div_lt_upper_bound; lia).
    lia.
Qed.

Lemma api_upload_progress_exact_witness :
  Api.onUploadProgress true 29 (Some 200) = [JsNumber.of_Z 15].
Proof.
  refine (proj1 (api_upload_progress_exact 29 200 _ _)); lia.
Defined.

(** X15: the two progress computations of the front end are not
    interchangeable: there are byte counts for which [FileUpload]
    ([Math.round((loaded / total) * 100)], two roundings) reports one
    percent less than the exact rounding that [uploadFile] reports, for
    instance 14 instead of 15 for 29 bytes of 200. *)
Theorem progress_formulas_disagree :
  exists loaded total : Z,
    0 < total < 2 ^ 45 /\ 0 <= loaded <= total /\
    Api.progress_of loaded total =
      JsNumber.of_Z ((200 * loaded + total) / (2 * total)) /\
    percent_of loaded total =
      JsNumber.of_Z ((200 * loaded + total) / (2 * total) - 1).
Proof.
  exists 29, 200. split; [lia|]. split; [lia|].
  split; vm_compute; reflexivity.
Qed.

(** X16: the form that [uploadFile] posts begins with the file and
    holds no other file entry, so it holds the file exactly once; it has
    between one and three entries with distinct keys; [project_name] is
    in it exactly when a non-empty project name is given, with that value,
    and the same for [description]: an optional field that is missing or
    empty is left out, not sent as an empty string. *)
Theorem uploadFile_form_has_no_empty_field (file : File.t)
    (projectName description : option string) :
  let form := Api.uploadFile_formData file projectName description in
  form = ("file", FormFile file) :: List.tl form /\
  (forall (key : string) (f : File.t), ~ In (key, FormFile f) (List.tl form)) /\
  (forall value : string, ~ In ("file", FormString value) form) /\
  List.NoDup (List.map fst form) /\
  (1 <= length form <= 3)%nat /\
  (forall (key : string) (v : FormValue),
     In (key, v) form ->
     key = "file" \/ key = "project_name" \/ key = "description") /\
  (forall value : string,
     In ("project_name", FormString value) form <->
     projectName = Some value /\ value <> "") /\
  (forall value : string,
     In ("description", FormString value) form <->
     description = Some value /\ value <> "").
Proof.
  cbv zeta. unfold Api.uploadFile_formData, Api.truthy, Api.show.
  destruct projectName as [p|]; [destruct (String.eqb_spec p "") as [Hp|Hp]|];
    (destruct description as [d|]; [destruct (String.eqb_spec d "") as [Hd|Hd]|]);
    cbn [negb app List.tl List.map fst length In];
    (split; [reflexivity|]);
    (split; [intros key f H; repeat (destruct H as [H|H]; [discriminate H|]);
             exact H|]);
    (split; [intros value H; repeat (destruct H as [H|H]; [discriminate H|]);
             exact H|]);
    (split; [repeat (apply List.NoDup_cons;
                     [cbn [In]; intros H;
                      repeat (destruct H as [H|H]; [discriminate H|]); exact H|]);
             apply List.NoDup_nil|]);
    (split; [lia|]);
    (split; [intros key v H;
             repeat (destruct H as [H|H];
                     [injection H as <- _; tauto|]); contradiction|]);
    split; intros value;
    (split;
     [ intros H;
       repeat (destruct H as [H|H];
               [first [discriminate H
                      | injection H as <-; split; [reflexivity|assumption]]|]);
       contradiction
     | intros [H Hne];
       first [discriminate H
             | injection H as ->;
               first [contradiction
                     | repeat (first [left; reflexivity | right])]] ]).
Qed.
